(** * Session lifecycle of the purchase-system client

    A shallow embedding of [src/services/userService.js],
    [src/context/AuthContext.jsx] and the submit handler of the login form:
    the response normalisation of the identity service helpers and the
    session manager held by [AuthProvider] (rehydration from
    [localStorage], login with best-effort role enrichment, logout, and the
    auto-logout timer).

    JavaScript values are modelled by a small universe of JSON-like values.
    Numbers are integers or [NaN]: every number the code computes itself is
    a millisecond timestamp or a difference of two.  Arrays and functions
    never flow through the modelled code and are left out.

    The clock is explicit: every operation that reads [Date.now()] takes the
    reading as an argument.  The event loop is a list of events (a login
    call, the settlement of a profile request, a logout, a timeout firing, a
    render), so that a call suspended at its [await] can interleave with the
    others.  A timeout set with delay [d] at clock reading [now] is due at
    [now + d]. *)

From Stdlib Require Import ZArith List String Ascii Bool Lia.
From Stdlib Require Import Decimal DecimalString DecimalZ.
From ExtLib Require Import Structures.Monad Structures.MonadExc.
From ExtLib Require Import Data.Monads.EitherMonad.
Import ListNotations.
Import MonadNotation.

#[local] Set Warnings "-register-all".

Local Open Scope string_scope.
Local Open Scope Z_scope.
Local Open Scope monad_scope.

(* ===================================================================== *)
(** ** JavaScript values *)
(* ===================================================================== *)

Module JS.

(** A JavaScript number: an integer, or [NaN]. *)
Inductive number : Type :=
| NaN
| Int (z : Z).

(** Values.  An object is its list of own properties in insertion order. *)
Inductive value : Type :=
| VUndefined
| VNull
| VBool (b : bool)
| VNum (n : number)
| VStr (s : string)
| VObj (fields : list (string * value)).

Definition obj : Type := list (string * value).

(** What a [throw] or a rejected promise carries. *)
Inductive exn : Type :=
| Error (message : string)
| SyntaxError (message : string)
| Rejected (reason : value).

(** A computation that may throw; [inl e] is the exception. *)
Definition js : Type -> Type := sum exn.

(** [Boolean(v)]: the falsy values are [undefined], [null], [false], [0],
    [NaN] and the empty string. *)
Definition truthy (v : value) : bool :=
  match v with
  | VUndefined | VNull => false
  | VBool b => b
  | VNum NaN => false
  | VNum (Int z) => negb (z =? 0)
  | VStr s => negb (s =? "")%string
  | VObj _ => true
  end.

(** [a || b] on values: the first operand when it is truthy, else the
    second. *)
Definition or_else (a b : value) : value := if truthy a then a else b.

Notation "a ||| b" := (or_else a b) (at level 50, left associativity).

(** Own-property lookup; a missing property reads as [undefined]. *)
Fixpoint get (k : string) (o : obj) : value :=
  match o with
  | [] => VUndefined
  | (k', v) :: o' => if (k =? k')%string then v else get k o'
  end.

(** [o.k = v]: an existing property keeps its position, a new one is
    appended. *)
Fixpoint set (k : string) (v : value) (o : obj) : obj :=
  match o with
  | [] => [(k, v)]
  | (k', v') :: o' =>
      if (k =? k')%string then (k', v) :: o' else (k', v') :: set k v o'
  end.

(** [v?.k].  None of the property names the code reads is defined on the
    prototype of a primitive, so a primitive reads as [undefined]. *)
Definition opt_get (v : value) (k : string) : value :=
  match v with
  | VObj o => get k o
  | _ => VUndefined
  end.

(** The characters of a string under their indices, from index [i] on. *)
Fixpoint chars_from (i : nat) (s : string) : obj :=
  match s with
  | EmptyString => []
  | String c s' =>
      (NilZero.string_of_uint (Nat.to_uint i), VStr (String c EmptyString))
        :: chars_from (S i) s'
  end.

(** [{ ...v }]: the own enumerable properties of [v].  An object gives its
    properties and a string its characters; [undefined], [null], a number
    and a boolean give nothing. *)
Definition spread (v : value) : obj :=
  match v with
  | VObj o => o
  | VStr s => chars_from 0 s
  | _ => []
  end.

(** [{ ...base, ...more }] *)
Definition spread_into (base more : obj) : obj :=
  fold_left (fun o kv => set (fst kv) (snd kv) o) more base.

(** [typeof v === "object"] *)
Definition is_object_type (v : value) : bool :=
  match v with
  | VNull | VObj _ => true
  | _ => false
  end.

Definition number_eqb (a b : number) : bool :=
  match a, b with
  | NaN, NaN => true
  | Int x, Int y => x =? y
  | _, _ => false
  end.

(** [Object.is] on the modelled values (objects compared by contents). *)
Fixpoint same_value (a b : value) : bool :=
  match a, b with
  | VUndefined, VUndefined => true
  | VNull, VNull => true
  | VBool x, VBool y => Bool.eqb x y
  | VNum x, VNum y => number_eqb x y
  | VStr x, VStr y => (x =? y)%string
  | VObj fs, VObj gs =>
      (fix fields (fs gs : obj) {struct fs} : bool :=
         match fs, gs with
         | [], [] => true
         | (k, v) :: fs', (k', v') :: gs' =>
             (k =? k')%string && same_value v v' && fields fs' gs'
         | _, _ => false
         end) fs gs
  | _, _ => false
  end.

(** [a - b] and the comparisons [a >= b] and [a <= b]; any comparison with
    [NaN] is false. *)
Definition sub (a b : number) : number :=
  match a, b with
  | Int x, Int y => Int (x - y)
  | _, _ => NaN
  end.

Definition geb (a b : number) : bool :=
  match a, b with
  | Int x, Int y => y <=? x
  | _, _ => false
  end.

Definition leb (a b : number) : bool :=
  match a, b with
  | Int x, Int y => x <=? y
  | _, _ => false
  end.

End JS.
Import JS.

(* ===================================================================== *)
(** ** src/services/userService.js *)
(* ===================================================================== *)

Module UserService.

(** What [await axios.get/post(...)] gives: a rejection, or the body
    [res.data] of a response with a success status. *)
Definition http_result : Type := js value.

(** The properties [normalizeUser] destructures out of [raw]. *)
Definition picked : list string :=
  ["id"; "_id"; "userId"; "username"; "email"; "role"; "createdAt";
   "updatedAt"].

Definition is_picked (k : string) : bool :=
  existsb (String.eqb k) picked.

(** [const { id, _id, ..., ...rest } = raw] *)
Definition rest_of (raw : obj) : obj :=
  filter (fun kv => negb (is_picked (fst kv))) raw.

Definition normalizeUser (raw : value) : value :=
  if negb (truthy raw) || negb (is_object_type raw) then raw
  else
    let o := spread raw in
    let rest := rest_of o in
    VObj (spread_into
            [("id", get "id" o ||| get "_id" o ||| get "userId" o
                    ||| get "id" rest);
             ("username", get "username" o ||| get "username" rest);
             ("email", get "email" o ||| get "email" rest);
             ("role", get "role" o ||| get "role" rest ||| VStr "user");
             ("createdAt", get "createdAt" o);
             ("updatedAt", get "updatedAt" o)]
            rest).

Definition malformed_login : exn :=
  Error "Malformed login response: expected token and user".

(** [loginUser({ username, password })], given the outcome of the POST. *)
Definition loginUser (post : http_result) : js value :=
  data <- post ;;
  let token := opt_get data "token" in
  let user := normalizeUser (opt_get data "user") in
  if negb (truthy token) || negb (truthy user) then raise malformed_login
  else ret (VObj [("user", user); ("token", token)]).

(** [fetchCurrentUser(token)], given the outcome of the GET. *)
Definition fetchCurrentUser (token : value) (get_me : http_result)
  : js value :=
  if negb (truthy token) then raise (Error "Missing auth token")
  else
    data <- get_me ;;
    ret (normalizeUser (opt_get data "user" ||| data)).

(** [computeExpiry(ms = 60 * 60 * 1000)] at clock reading [now]. *)
Definition computeExpiry (now : Z) (ms : option Z) : Z :=
  now + match ms with Some m => m | None => 60 * 60 * 1000 end.

End UserService.
Import UserService.

(* ===================================================================== *)
(** ** src/context/AuthContext.jsx *)
(* ===================================================================== *)

Module Auth.

(** The state [AuthProvider] owns, together with the two pieces of the
    browser it acts on: the ["user"] entry of [localStorage] and the
    timeouts that are pending in the event loop.  Every timeout the
    component sets has [logout] as its callback, so a pending timeout is its
    handle and the clock reading at which it is due. *)
Record state : Type := mkState {
  storage : option string;        (* localStorage.getItem("user") *)
  user : value;                   (* useState(null) *)
  ready : bool;                   (* useState(false) *)
  logoutTimerRef : option nat;    (* useRef(null), or a timeout handle
                                     (which is truthy) *)
  timers : list (nat * Z);        (* pending timeouts: handle, due time *)
  next_handle : nat;              (* the handle setTimeout returns next *)
  effect_dep : value              (* [user?.expiresAt] when the expiry
                                     effect last ran *)
}.

(** A [login] call suspended at [await fetchCurrentUser(...)]: its locals. *)
Record pending : Type := mkPending {
  toStore : obj;
  expiresAt : value
}.

(** [localStorage.setItem("user", s)] when the store takes the value.  The
    call can also throw (the quota is exceeded); that outcome is
    [StoreQuota.setItem_checked]. *)
Definition setItem (s : string) (st : state) : state :=
  mkState (Some s) (user st) (ready st) (logoutTimerRef st) (timers st)
          (next_handle st) (effect_dep st).

Definition removeItem (st : state) : state :=
  mkState None (user st) (ready st) (logoutTimerRef st) (timers st)
          (next_handle st) (effect_dep st).

Definition setUser (v : value) (st : state) : state :=
  mkState (storage st) v (ready st) (logoutTimerRef st) (timers st)
          (next_handle st) (effect_dep st).

Definition setReady (b : bool) (st : state) : state :=
  mkState (storage st) (user st) b (logoutTimerRef st) (timers st)
          (next_handle st) (effect_dep st).

Definition set_ref (r : option nat) (st : state) : state :=
  mkState (storage st) (user st) (ready st) r (timers st)
          (next_handle st) (effect_dep st).

Definition set_dep (d : value) (st : state) : state :=
  mkState (storage st) (user st) (ready st) (logoutTimerRef st) (timers st)
          (next_handle st) d.

(** The longest delay a timeout can have: the runtime keeps the delay as a
    signed 32-bit integer. *)
Definition max_delay : Z := 2147483647.

(** [setTimeout(logout, delay)] at clock reading [now].  A delay that is
    [NaN] or negative counts as zero; the timeout is due [delay]
    milliseconds from now.  This is the runtime's behaviour for a delay of
    at most [max_delay]; what a runtime does with a longer one (it runs the
    callback at once, or after the delay reduced to 32 bits) is not
    modelled, and the statements about the instant at which a timeout is
    due are made for delays within [max_delay]. *)
Definition setTimeout (now : Z) (delay : number) (st : state)
  : nat * state :=
  let d := match delay with Int d => Z.max 0 d | NaN => 0 end in
  (next_handle st,
   mkState (storage st) (user st) (ready st) (logoutTimerRef st)
           (timers st ++ [(next_handle st, now + d)])
           (S (next_handle st)) (effect_dep st)).

(** [clearTimeout(h)] *)
Definition clearTimeout (h : nat) (st : state) : state :=
  mkState (storage st) (user st) (ready st) (logoutTimerRef st)
          (filter (fun t => negb (Nat.eqb (fst t) h)) (timers st))
          (next_handle st) (effect_dep st).

Definition clearLogoutTimer (st : state) : state :=
  match logoutTimerRef st with
  | Some h => set_ref None (clearTimeout h st)
  | None => st
  end.

Definition logout (st : state) : state :=
  clearLogoutTimer (setUser VNull (removeItem st)).

(** The component is mounted and [user] is not [null]: what the router's
    [ProtectedRoute] tests with [!user]. *)
Definition authenticated (st : state) : bool := truthy (user st).

Section Platform.

(** The parts of the platform the component calls and that are not modelled
    here: [JSON.parse] (which throws on a string that is not JSON),
    [JSON.stringify], and the conversion of a string to a number. *)
Variable JSON_parse : string -> js value.
Variable JSON_stringify : value -> string.
Variable StringToNumber : string -> number.

(** [Number(v)] *)
Definition ToNumber (v : value) : number :=
  match v with
  | VUndefined => NaN
  | VNull => Int 0
  | VBool b => Int (if b then 1 else 0)
  | VNum n => n
  | VStr s => StringToNumber s
  | VObj _ => NaN
  end.

Definition scheduleAutoLogout (now : Z) (expiresAt : value) (st : state)
  : state :=
  let st := clearLogoutTimer st in
  if negb (truthy expiresAt) then st
  else
    let msLeft := sub (ToNumber expiresAt) (Int now) in
    if leb msLeft (Int 0) then logout st
    else
      let (h, st') := setTimeout now msLeft st in
      set_ref (Some h) st'.

(** The first effect of [AuthProvider], run once on mount. *)
Definition hydrate (now : Z) (st : state) : js state :=
  st' <- match storage st with
         | Some savedUser =>
             if negb (savedUser =? "")%string then
               catch
                 (parsed <- JSON_parse savedUser ;;
                  let expiresAt := opt_get parsed "expiresAt" in
                  if truthy expiresAt && geb (Int now) (ToNumber expiresAt)
                  then ret (removeItem st)
                  else ret (setUser parsed st))
                 (fun _ => ret (removeItem st))
             else ret st
         | None => ret st
         end ;;
  ret (setReady true st').

(** [login(userData)] is an [async] function with one [await]; it is
    modelled in two halves so that other events can run while it is
    suspended.  [login_prepare] is the part up to the [if]: the locals
    [expiresAt] and [toStore]. *)
Definition login_prepare (now : Z) (userData : value) : pending :=
  let expiresAt :=
    opt_get userData "expiresAt" ||| VNum (Int (computeExpiry now None)) in
  mkPending (set "expiresAt" expiresAt (spread userData)) expiresAt.

(** [!toStore.role && toStore.token] *)
Definition wants_role (p : pending) : bool :=
  negb (truthy (get "role" (toStore p))) && truthy (get "token" (toStore p)).

(** The last three statements of [login]. *)
Definition login_commit (now : Z) (p : pending) (st : state) : state :=
  scheduleAutoLogout now (expiresAt p)
    (setUser (VObj (toStore p))
       (setItem (JSON_stringify (VObj (toStore p))) st)).

(** The two assignments after the [await]. *)
Definition assign_role_id (fresh : value) (o : obj) : obj :=
  let o := set "role" (opt_get fresh "role" ||| get "role" o) o in
  set "id" (get "id" o ||| opt_get fresh "id" ||| opt_get fresh "_id"
              ||| opt_get fresh "userId") o.

(** [login] from the point where the profile request settles, at clock
    reading [now]. *)
Definition login_resume (now : Z) (p : pending) (get_me : http_result)
           (st : state) : js state :=
  o <- catch
         (fresh <- fetchCurrentUser (get "token" (toStore p)) get_me ;;
          ret (assign_role_id fresh (toStore p)))
         (fun _ => ret (toStore p)) ;;
  ret (login_commit now (mkPending o (expiresAt p)) st).

(** [login(userData)] as a whole, when nothing else happens while it
    awaits: called at clock reading [now]; the profile request, if one is
    made, settles with [get_me] at clock reading [now']. *)
Definition login (now now' : Z) (userData : value) (get_me : http_result)
           (st : state) : js state :=
  let p := login_prepare now userData in
  if wants_role p then login_resume now' p get_me st
  else ret (login_commit now p st).

(** The second effect of [AuthProvider], for the rendered [user]. *)
Definition expiry_effect (now : Z) (st : state) : state :=
  let e := opt_get (user st) "expiresAt" in
  if truthy e then scheduleAutoLogout now e st else clearLogoutTimer st.

(** A render of the component after a state update: when
    [user?.expiresAt] differs from the value the expiry effect last ran
    with, the effect's cleanup ([clearLogoutTimer]) runs and then the
    effect. *)
Definition render (now : Z) (st : state) : state :=
  let e := opt_get (user st) "expiresAt" in
  if same_value e (effect_dep st) then st
  else expiry_effect now (clearLogoutTimer (set_dep e st)).

(** The component before it mounts, over a given [localStorage] entry. *)
Definition initial (stored : option string) : state :=
  mkState stored VNull false None [] 1%nat VUndefined.

(** Mounting: both effects run for the first render, in which [user] is
    still [null], so the expiry effect only clears the (absent) timer. *)
Definition mount (now : Z) (stored : option string) : js state :=
  st <- hydrate now (initial stored) ;;
  ret (set_dep VUndefined (clearLogoutTimer st)).

(** *** The event loop *)

Record world : Type := mkWorld {
  app : state;
  inflight : list pending      (* login calls awaiting the profile request *)
}.

Inductive event : Type :=
| Login (now : Z) (userData : value)
| Settle (now : Z) (i : nat) (get_me : http_result)
| Logout
| Fire (now : Z) (h : nat)
| Render (now : Z).

Fixpoint remove_nth {A : Type} (i : nat) (l : list A) : list A :=
  match i, l with
  | _, [] => []
  | O, _ :: l' => l'
  | S i', x :: l' => x :: remove_nth i' l'
  end.

Definition is_due (now : Z) (h : nat) (t : nat * Z) : bool :=
  Nat.eqb (fst t) h && (snd t <=? now).

(** One turn of the event loop.  An event that is not enabled (a request
    that is not in flight, a timeout that is not pending or not yet due)
    leaves the world as it is. *)
Definition step (ev : event) (w : world) : world :=
  match ev with
  | Login now userData =>
      let p := login_prepare now userData in
      if wants_role p then mkWorld (app w) (inflight w ++ [p])
      else mkWorld (login_commit now p (app w)) (inflight w)
  | Settle now i get_me =>
      match nth_error (inflight w) i with
      | Some p =>
          match login_resume now p get_me (app w) with
          | inr st => mkWorld st (remove_nth i (inflight w))
          | inl _ => mkWorld (app w) (remove_nth i (inflight w))
          end
      | None => w
      end
  | Logout => mkWorld (logout (app w)) (inflight w)
  | Fire now h =>
      if existsb (is_due now h) (timers (app w))
      then mkWorld (logout (clearTimeout h (app w))) (inflight w)
      else w
  | Render now => mkWorld (render now (app w)) (inflight w)
  end.

Definition run (evs : list event) (w : world) : world :=
  fold_left (fun w ev => step ev w) evs w.

(** A whole [login(userData)] call made at [t_call] whose profile request,
    when it makes one, settles at [t_settle], with no other event in
    between. *)
Definition login_call (t_call t_settle : Z) (userData : value)
           (get_me : http_result) (w : world) : world :=
  step (Settle t_settle (List.length (inflight w)) get_me)
       (step (Login t_call userData) w).

End Platform.

End Auth.
Import Auth.

(* ===================================================================== *)
(** ** src/pages/Login.jsx *)
(* ===================================================================== *)

Module LoginPage.

Section Platform.

Variable JSON_stringify : value -> string.
Variable StringToNumber : string -> number.

(** [handleSubmit] of the login form from [await loginUser(form)] on, given
    the outcome of the POST: the session manager's [login] is called with
    [{ ...res.user, token: res.token }], and an exception is caught and
    shown without touching the session.  (The registration form ends in
    the same two statements and the same [catch].) *)
Definition handleSubmit (now : Z) (post : http_result) (w : world) : world :=
  match loginUser post with
  | inr res =>
      step JSON_stringify StringToNumber
        (Login now
           (VObj (set "token" (opt_get res "token")
                    (spread (opt_get res "user")))))
        w
  | inl _ => w
  end.

End Platform.

End LoginPage.
Import LoginPage.

(* ===================================================================== *)
(** ** A reference JSON codec *)
(* ===================================================================== *)

(** [JSON.stringify] and [JSON.parse] on the modelled values, used to run
    the component on concrete [localStorage] contents and to state the
    round trip of a persisted session.  The text is read as a sequence of
    one-byte code units; number literals are integers, written in plain
    decimal (a fraction or an exponent is outside the modelled numbers and
    is refused), and so are arrays. *)
Module RefJSON.

Definition dquote : ascii := "034"%char.
Definition backslash : ascii := "092"%char.

(** Writes a JSON text with apostrophes for its double quotes. *)
Fixpoint q (s : string) : string :=
  match s with
  | EmptyString => EmptyString
  | String c s' => String (if (c =? "'")%char then dquote else c) (q s')
  end.

Definition hex_digit (n : nat) : ascii :=
  nth n (list_ascii_of_string "0123456789abcdef") "0"%char.

(** One character of a string literal as [JSON.stringify] writes it. *)
Definition escape (c : ascii) : string :=
  let n := nat_of_ascii c in
  if (c =? dquote)%char then String backslash (String dquote "")
  else if (c =? backslash)%char then String backslash (String backslash "")
  else if (n =? 8)%nat then String backslash "b"
  else if (n =? 9)%nat then String backslash "t"
  else if (n =? 10)%nat then String backslash "n"
  else if (n =? 12)%nat then String backslash "f"
  else if (n =? 13)%nat then String backslash "r"
  else if (n <? 32)%nat then
    String backslash
      (String "u" (String "0" (String "0"
         (String (hex_digit (n / 16)) (String (hex_digit (n mod 16)) "")))))
  else String c "".

Fixpoint escape_all (s : string) : string :=
  match s with
  | EmptyString => EmptyString
  | String c s' => escape c ++ escape_all s'
  end.

Definition quote (s : string) : string :=
  String dquote (escape_all s ++ String dquote "").

Definition show_Z (z : Z) : string := NilZero.string_of_int (Z.to_int z).

(** [JSON.stringify].  A property whose value is [undefined] is left out;
    [NaN] is written as [null].  (For [undefined] itself the result is what
    [setItem] would store; the component only serializes objects.) *)
Fixpoint stringify (v : value) : string :=
  match v with
  | VUndefined => "undefined"
  | VNull => "null"
  | VBool true => "true"
  | VBool false => "false"
  | VNum NaN => "null"
  | VNum (Int z) => show_Z z
  | VStr s => quote s
  | VObj fs =>
      "{" ++
      (fix members (fs : obj) (sep : string) {struct fs} : string :=
         match fs with
         | [] => ""
         | (_, VUndefined) :: fs' => members fs' sep
         | (k, v) :: fs' =>
             sep ++ quote k ++ ":" ++ stringify v ++ members fs' ","
         end) fs "" ++ "}"
  end.

Definition is_ws (c : ascii) : bool :=
  let n := nat_of_ascii c in
  (n =? 32)%nat || (n =? 9)%nat || (n =? 10)%nat || (n =? 13)%nat.

Fixpoint skip_ws (s : string) : string :=
  match s with
  | String c s' => if is_ws c then skip_ws s' else s
  | EmptyString => EmptyString
  end.

Definition hex_val (c : ascii) : option nat :=
  let n := nat_of_ascii c in
  if ((48 <=? n) && (n <=? 57))%nat then Some (n - 48)%nat
  else if ((97 <=? n) && (n <=? 102))%nat then Some (n - 87)%nat
  else if ((65 <=? n) && (n <=? 70))%nat then Some (n - 55)%nat
  else None.

(** The character a two-character escape stands for. *)
Definition unescape (e : ascii) : option ascii :=
  if (e =? dquote)%char then Some dquote
  else if (e =? backslash)%char then Some backslash
  else if (e =? "/")%char then Some "/"%char
  else if (e =? "b")%char then Some "008"%char
  else if (e =? "t")%char then Some "009"%char
  else if (e =? "n")%char then Some "010"%char
  else if (e =? "f")%char then Some "012"%char
  else if (e =? "r")%char then Some "013"%char
  else None.

Definition consc (c : ascii) (r : option (string * string))
  : option (string * string) :=
  match r with
  | Some (s, rest) => Some (String c s, rest)
  | None => None
  end.

(** A string literal after its opening quote: its contents and the text
    after the closing quote. *)
Fixpoint string_body (s : string) : option (string * string) :=
  match s with
  | EmptyString => None
  | String c s' =>
      if (c =? dquote)%char then Some (EmptyString, s')
      else if (c =? backslash)%char then
        match s' with
        | String e s'' =>
            if (e =? "u")%char then
              match s'' with
              | String h1 (String h2 (String h3 (String h4 s5))) =>
                  match hex_val h1, hex_val h2, hex_val h3, hex_val h4 with
                  | Some 0%nat, Some 0%nat, Some a, Some b =>
                      consc (ascii_of_nat (16 * a + b)) (string_body s5)
                  | _, _, _, _ => None
                  end
              | _ => None
              end
            else
              match unescape e with
              | Some c' => consc c' (string_body s'')
              | None => None
              end
        | EmptyString => None
        end
      else if (nat_of_ascii c <? 32)%nat then None
      else consc c (string_body s')
  end.

(** The longest prefix of decimal digits, and the text after it. *)
Fixpoint digits (s : string) : uint * string :=
  match s with
  | EmptyString => (Nil, EmptyString)
  | String c s' =>
      let (u, r) := digits s' in
      match uint_of_char c (Some u) with
      | Some u' => (u', r)
      | None => (Nil, s)
      end
  end.

Definition starts_fraction (s : string) : bool :=
  match s with
  | String c _ => (c =? ".")%char || (c =? "e")%char || (c =? "E")%char
  | EmptyString => false
  end.

(** An unsigned integer literal: no leading zero, no fraction or
    exponent. *)
Definition unsigned_literal (s : string) : option (uint * string) :=
  let (u, r) := digits s in
  if starts_fraction r then None
  else
    match u with
    | Nil => None
    | D0 Nil => Some (u, r)
    | D0 _ => None
    | _ => Some (u, r)
    end.

Definition number_literal (s : string) : option (value * string) :=
  match s with
  | String "-" s' =>
      match unsigned_literal s' with
      | Some (u, r) => Some (VNum (Int (Z.of_int (Neg u))), r)
      | None => None
      end
  | _ =>
      match unsigned_literal s with
      | Some (u, r) => Some (VNum (Int (Z.of_int (Pos u))), r)
      | None => None
      end
  end.

Fixpoint strip_prefix (p s : string) : option string :=
  match p, s with
  | EmptyString, _ => Some s
  | String a p', String b s' =>
      if (a =? b)%char then strip_prefix p' s' else None
  | _, _ => None
  end.

(** A JSON value at the head of the text, and the text after it; [fuel]
    bounds the number of values and members read. *)
Fixpoint parse_value (fuel : nat) (s : string) : option (value * string) :=
  match fuel with
  | O => None
  | S fuel' =>
      match skip_ws s with
      | EmptyString => None
      | String c s' =>
          if (c =? "{")%char then
            match skip_ws s' with
            | String "}" r => Some (VObj [], r)
            | _ => parse_members fuel' s' []
            end
          else if (c =? dquote)%char then
            match string_body s' with
            | Some (str, r) => Some (VStr str, r)
            | None => None
            end
          else
            match strip_prefix "null" (String c s'),
                  strip_prefix "true" (String c s'),
                  strip_prefix "false" (String c s') with
            | Some r, _, _ => Some (VNull, r)
            | _, Some r, _ => Some (VBool true, r)
            | _, _, Some r => Some (VBool false, r)
            | None, None, None => number_literal (String c s')
            end
      end
  end
with parse_members (fuel : nat) (s : string) (acc : obj)
  : option (value * string) :=
  match fuel with
  | O => None
  | S fuel' =>
      match skip_ws s with
      | String c s1 =>
          if (c =? dquote)%char then
            match string_body s1 with
            | Some (k, s2) =>
                match skip_ws s2 with
                | String ":" s3 =>
                    match parse_value fuel' s3 with
                    | Some (v, s4) =>
                        match skip_ws s4 with
                        | String "," s5 => parse_members fuel' s5 (set k v acc)
                        | String "}" s5 => Some (VObj (set k v acc), s5)
                        | _ => None
                        end
                    | None => None
                    end
                | _ => None
                end
            | None => None
            end
          else None
      | EmptyString => None
      end
  end.

(** [JSON.parse] on the texts of the modelled values: objects, strings,
    integers, [true], [false] and [null].  A text with an array, a fraction
    or an exponent denotes a value the model does not have and is refused
    here, where [JSON.parse] accepts it; the texts [stringify] writes are
    all read back ([parse_stringify_prune]). *)
Definition parse (s : string) : js value :=
  match parse_value (S (String.length s)) s with
  | Some (v, r) =>
      match skip_ws r with
      | EmptyString => inr v
      | _ => inl (SyntaxError "Unexpected non-whitespace character after JSON")
      end
  | None => inl (SyntaxError "Unexpected token in JSON")
  end.

(** [Number(s)] for a string: the empty string is [0], a decimal integer
    literal as [stringify] writes it is its value, and anything else is
    [NaN].  (Surrounding white space, leading zeros, exponents and the
    other numeric forms [Number] accepts are not modelled.) *)
Definition string_to_number (s : string) : number :=
  match s with
  | EmptyString => Int 0
  | _ =>
      match number_literal s with
      | Some (VNum n, EmptyString) => n
      | _ => NaN
      end
  end.

End RefJSON.

Import RefJSON.

(* ===================================================================== *)
(** ** Notions used to state the properties *)
(* ===================================================================== *)

Module Notions.

(** The first truthy value of a list, [undefined] when there is none: what
    a chain [a || b || c || undefined] evaluates to. *)
Fixpoint coalesce (vs : list value) : value :=
  match vs with
  | [] => VUndefined
  | v :: vs' => if truthy v then v else coalesce vs'
  end.

(** At most one timeout is pending, and it is the one [logoutTimerRef]
    holds. *)
Definition single_timer (st : state) : Prop :=
  (List.length (timers st) <= 1)%nat /\
  forall t, In t (timers st) -> logoutTimerRef st = Some (fst t).

(** Exactly one timeout is pending, due at [e], and the ref holds it. *)
Definition armed (e : Z) (st : state) : Prop :=
  exists h, timers st = [(h, e)] /\ logoutTimerRef st = Some h.

(** No timeout is pending and the ref is empty. *)
Definition disarmed (st : state) : Prop :=
  timers st = [] /\ logoutTimerRef st = None.

(** The test of the first effect: the record carries a truthy [expiresAt]
    that the clock has reached. *)
Definition expired (StringToNumber : string -> number) (now : Z)
           (rec : value) : bool :=
  truthy (opt_get rec "expiresAt") &&
  geb (Int now) (ToNumber StringToNumber (opt_get rec "expiresAt")).

(** What [toStore] holds once the profile request has settled: the two
    assignments when it resolved, nothing new when it was rejected (the
    empty [catch]). *)
Definition enriched (p : pending) (get_me : http_result) : obj :=
  match fetchCurrentUser (get "token" (toStore p)) get_me with
  | inr fresh => assign_role_id fresh (toStore p)
  | inl _ => toStore p
  end.

(** *** The reference codec *)

(** The properties [JSON.stringify] keeps: those whose value is not
    [undefined], at every depth. *)
Fixpoint prune (v : value) : value :=
  match v with
  | VObj fs =>
      VObj ((fix fields (fs : obj) : obj :=
               match fs with
               | [] => []
               | (_, VUndefined) :: fs' => fields fs'
               | (k, v) :: fs' => (k, prune v) :: fields fs'
               end) fs)
  | _ => v
  end.

Definition has_key (k : string) (o : obj) : bool :=
  existsb (fun kv => (k =? fst kv)%string) o.

Fixpoint distinct_keys (o : obj) : bool :=
  match o with
  | [] => true
  | (k, _) :: o' => negb (has_key k o') && distinct_keys o'
  end.

(** The values a JSON text denotes exactly: no [undefined], no [NaN], and
    objects whose property names are distinct. *)
Fixpoint json_value (v : value) : bool :=
  match v with
  | VUndefined => false
  | VNum NaN => false
  | VObj fs => distinct_keys fs && forallb (fun kv => json_value (snd kv)) fs
  | _ => true
  end.

(** The fuel [parse_value] needs to read back what [stringify] wrote. *)
Fixpoint fuel_for (v : value) : nat :=
  match v with
  | VObj fs =>
      S ((fix fields (fs : obj) : nat :=
            match fs with
            | [] => O
            | (_, v) :: fs' => S (fuel_for v + fields fs')
            end) fs)
  | _ => 1%nat
  end.

(** The text after a value inside an object: a comma, a closing brace, or
    nothing at the top level. *)
Definition delimited (s : string) : bool :=
  match s with
  | EmptyString => true
  | String c _ => (c =? ",")%char || (c =? "}")%char
  end.

(** [stringify], [prune] and [fuel_for] on the list of properties of an
    object; [sep] is written before the first property that is kept. *)
Fixpoint members (fs : obj) (sep : string) : string :=
  match fs with
  | [] => ""
  | (_, VUndefined) :: fs' => members fs' sep
  | (k, v) :: fs' => sep ++ quote k ++ ":" ++ stringify v ++ members fs' ","
  end.

Fixpoint prune_fields (fs : obj) : obj :=
  match fs with
  | [] => []
  | (_, VUndefined) :: fs' => prune_fields fs'
  | (k, v) :: fs' => (k, prune v) :: prune_fields fs'
  end.

Fixpoint fuel_fields (fs : obj) : nat :=
  match fs with
  | [] => O
  | (_, v) :: fs' => S (fuel_for v + fuel_fields fs')
  end.

(** The first character of an integer literal. *)
Definition is_num_head (c : ascii) : bool :=
  (c =? "-")%char || ((48 <=? nat_of_ascii c) && (nat_of_ascii c <=? 57))%nat.

(** A valid session: an object in which [token] and [expiresAt] are both
    present, [expiresAt] being a timestamp. *)
Definition valid_session (s : value) : bool :=
  truthy (opt_get s "token") &&
  match s, opt_get s "expiresAt" with
  | VObj _, VNum (Int _) => true
  | _, _ => false
  end.

End Notions.
Import Notions.

(* ===================================================================== *)
(** ** Concrete inputs *)
(* ===================================================================== *)

(** The runs below use the reference codec for the platform. *)
Module Scenario.

Definition mounted (now : Z) (stored : option string) : state :=
  match mount parse string_to_number now stored with
  | inr st => st
  | inl _ => initial stored
  end.

Definition fresh_world : world := mkWorld (mounted 0 None) [].

Definition go (evs : list event) : world :=
  run stringify string_to_number evs fresh_world.

Definition token_only : value := VObj [("token", VStr "t1")].

Definition profile : http_result :=
  inr (VObj [("user", VObj [("_id", VNum (Int 7)); ("role", VStr "admin")])]).

Definition network_error : exn := Rejected (VStr "Network Error").

Definition stored_live : string := q "{'token':'t1','expiresAt':5000}".
Definition stored_expired : string := q "{'token':'t2','expiresAt':500}".
Definition stored_zero : string := q "{'token':'t2','expiresAt':0}".
Definition stored_no_expiry : string := q "{'token':'t1'}".
Definition stored_no_token : string := q "{'expiresAt':5000}".
Definition stored_truncated : string := q "{'token':'t2'".
Definition stored_signed_in : string :=
  q ("{'id':'u7','username':'bob','role':'user','token':'jwt'," ++
     "'expiresAt':3601000}").

Definition session_live : value :=
  VObj [("token", VStr "t1"); ("role", VStr "admin");
        ("expiresAt", VNum (Int 5000))].

Definition second_login : value :=
  VObj [("token", VStr "t2"); ("role", VStr "user");
        ("expiresAt", VNum (Int 9000))].

Definition raw_user : obj :=
  [("_id", VStr "u7"); ("username", VStr "bob"); ("role", VStr "")].

Definition login_response : http_result :=
  inr (VObj [("user", VObj [("_id", VStr "u7"); ("username", VStr "bob")]);
             ("token", VStr "jwt")]).

End Scenario.
Import Scenario.

(* ===================================================================== *)
(** ** The rest of src/services/userService.js *)
(* ===================================================================== *)

Module UserServiceRest.

(** [v.k] on a value that may be [null] or [undefined]: reading a property
    of either throws a [TypeError]. *)
Definition get_prop (v : value) (k : string) : js value :=
  match v with
  | VUndefined | VNull =>
      raise (Error ("TypeError: cannot read property " ++ k))
  | _ => ret (opt_get v k)
  end.

(** [registerUser({ username, email, password })], given the outcome of the
    POST. *)
Definition registerUser (post : http_result) : js value :=
  data <- post ;;
  let token := opt_get data "token" in
  let user :=
    if truthy (opt_get data "user") then normalizeUser (opt_get data "user")
    else VNull in
  ret (VObj [("user", user); ("token", token);
             ("message", opt_get data "message")]).

(** [verifyToken(token)], given the outcome of the GET (which is sent only
    for a truthy token). *)
Definition verifyToken (token : value) (get_me : http_result) : js value :=
  if negb (truthy token) then ret (VBool false)
  else catch (_ <- get_me ;; ret (VBool true)) (fun _ => ret (VBool false)).

(** [fetchUserRole(token)] *)
Definition fetchUserRole (token : value) (get_me : http_result) : js value :=
  user <- fetchCurrentUser token get_me ;;
  get_prop user "role".

End UserServiceRest.
Import UserServiceRest.

(* ===================================================================== *)
(** ** src/pages/Register.jsx *)
(* ===================================================================== *)

Module RegisterPage.

Section Platform.

Variable JSON_stringify : value -> string.
Variable StringToNumber : string -> number.

(** [handleSubmit] of the registration form once [validate()] has passed,
    given the outcomes of the two POSTs (the second is sent only when the
    first resolved).  The value [registerUser] returns is not used; the
    rest is the login form's sequence, under the same [catch]. *)
Definition handleSubmit (now : Z) (register_post login_post : http_result)
           (w : world) : world :=
  match registerUser register_post with
  | inr _ =>
      LoginPage.handleSubmit JSON_stringify StringToNumber now login_post w
  | inl _ => w
  end.

End Platform.

End RegisterPage.

(* ===================================================================== *)
(** ** The router (AppRouter and ProtectedRoute) *)
(* ===================================================================== *)

Module Router.

(** The five routes of [AppRouter], by their [path]. *)
Inductive route : Type :=
| RouteLogin          (* "/login" *)
| RouteRegister       (* "/register" *)
| RouteDashboard      (* "/dashboard" *)
| RouteAdminUsers     (* "/admin/users" *)
| RouteOther.         (* "*" *)

Inductive page : Type :=
| PageLogin
| PageRegister
| PageDashboard
| PageUserList.

(** What a route element renders: nothing, a page, or a [<Navigate>] to
    one of the routes. *)
Inductive element : Type :=
| Blank
| Show (p : page)
| Navigate (to : route).

(** [v === s] for a string [s]. *)
Definition is_string (v : value) (s : string) : bool :=
  match v with
  | VStr x => (x =? s)%string
  | _ => false
  end.

(** [user.role !== role] for a string [role]. *)
Definition role_differs (user : value) (role : string) : bool :=
  negb (is_string (opt_get user "role") role).

(** [ProtectedRoute({ children, role })] under the context value
    [{ user, ready }]; [role] is absent or a string. *)
Definition ProtectedRoute (user : value) (ready : bool) (children : element)
           (role : option string) : element :=
  if negb ready then Blank
  else if negb (truthy user) then Navigate RouteLogin
  else
    match role with
    | Some r =>
        if negb (r =? "")%string && role_differs user r
        then Navigate RouteDashboard
        else children
    | None => children
    end.

(** The element [AppRouter] renders for the route that matched. *)
Definition AppRouter (user : value) (ready : bool) (r : route) : element :=
  match r with
  | RouteLogin =>
      if negb (truthy user) then Show PageLogin else Navigate RouteDashboard
  | RouteRegister =>
      if negb (truthy user) then Show PageRegister
      else Navigate RouteDashboard
  | RouteDashboard => ProtectedRoute user ready (Show PageDashboard) None
  | RouteAdminUsers =>
      ProtectedRoute user ready (Show PageUserList) (Some "admin")
  | RouteOther =>
      Navigate (if truthy user then RouteDashboard else RouteLogin)
  end.

(** Following [<Navigate>] elements, at most [hops] of them. *)
Fixpoint settle (hops : nat) (user : value) (ready : bool) (r : route)
  : element :=
  match AppRouter user ready r with
  | Navigate to =>
      match hops with
      | O => Navigate to
      | S hops' => settle hops' user ready to
      end
  | e => e
  end.

(** What the user sees at a route, for a state of the session manager. *)
Definition view (st : state) (r : route) : element :=
  settle 1 (user st) (ready st) r.

End Router.
Import Router.

(* ===================================================================== *)
(** ** The admin list (UserRoleUpdate and UserList.handleDelete) *)
(* ===================================================================== *)

Module AdminUsers.

(** [String(v)] *)
Definition ToString (v : value) : string :=
  match v with
  | VUndefined => "undefined"
  | VNull => "null"
  | VBool true => "true"
  | VBool false => "false"
  | VNum NaN => "NaN"
  | VNum (Int z) => NilZero.string_of_int (Z.to_int z)
  | VStr s => s
  | VObj _ => "[object Object]"
  end.

(** [l.includes(s)] on an array of strings. *)
Definition includes (l : list string) (s : string) : bool :=
  existsb (String.eqb s) l.

(** [[user?.id, user?._id, user?.userId, user?.username]
      .filter(Boolean).map(String)] *)
Definition myIds (user : value) : list string :=
  map ToString
      (filter truthy
              [opt_get user "id"; opt_get user "_id"; opt_get user "userId";
               opt_get user "username"]).

(** [isSelf] of [UserRoleUpdate], for the row [u]. *)
Definition isSelf (user : value) (u : obj) : bool :=
  includes (myIds user) (ToString (get "userId" u)) ||
  includes (myIds user) (ToString (get "username" u)).

(** [u.role === "admin" ? "user" : "admin"] *)
Definition newRole (u : obj) : string :=
  if is_string (get "role" u) "admin" then "user" else "admin".

(** What a handler of the list does: it refuses with a message, it is
    cancelled at the confirmation, it fails before sending (reading
    [user.token] of no user throws inside the [try]), or it sends its
    request for the user id in the URL with the bearer token. *)
Inductive outcome : Type :=
| Refused (message : string)
| Cancelled
| Failed
| Sent (userId : string) (role : option string) (bearer : string).

(** The request of a handler, once it is not refused. *)
Definition send (user : value) (u : obj) (role : option string) : outcome :=
  match user with
  | VUndefined | VNull => Failed
  | _ => Sent (ToString (get "userId" u)) role (ToString (opt_get user "token"))
  end.

(** [toggleRole] of [UserRoleUpdate] up to its request. *)
Definition toggleRole (user : value) (u : obj) : outcome :=
  if isSelf user u && negb (newRole u =? "admin")%string
  then Refused "You cannot demote your own admin account"
  else send user u (Some (newRole u)).

(** The [disabled] attribute of the button of [UserRoleUpdate]. *)
Definition disabled (user : value) (u : obj) (loading : bool) : bool :=
  loading || (isSelf user u && is_string (get "role" u) "admin").

(** [handleDelete] of [UserList] up to its request; [confirmed] is the
    answer to [window.confirm], which is asked only when the row is not the
    user's own. *)
Definition handleDelete (user : value) (targetUser : obj) (confirmed : bool)
  : outcome :=
  if includes (myIds user) (ToString (get "userId" targetUser))
  then Refused "You cannot delete your own account"
  else if negb confirmed then Cancelled
  else send user targetUser None.

End AdminUsers.
Import AdminUsers.

(* ===================================================================== *)
(** ** [login] over a store that can refuse the write *)
(* ===================================================================== *)

Module StoreQuota.

(** What [localStorage.setItem] throws when the quota is exceeded. *)
Definition quota_exceeded : exn := Error "QuotaExceededError".

Section Platform.

Variable JSON_stringify : value -> string.
Variable StringToNumber : string -> number.

(** Whether the store takes a value for the ["user"] entry. *)
Variable accepts : string -> bool.

(** [localStorage.setItem("user", s)] *)
Definition setItem_checked (s : string) (st : state) : js state :=
  if accepts s then ret (setItem s st) else raise quota_exceeded.

(** The last three statements of [login]; the write is not inside a [try],
    so when it throws neither [setUser] nor [scheduleAutoLogout] runs. *)
Definition login_commit_checked (now : Z) (p : pending) (st : state)
  : js state :=
  st1 <- setItem_checked (JSON_stringify (VObj (toStore p))) st ;;
  ret (scheduleAutoLogout StringToNumber now (expiresAt p)
         (setUser (VObj (toStore p)) st1)).

(** [login] from the point where the profile request settles. *)
Definition login_resume_checked (now : Z) (p : pending)
           (get_me : http_result) (st : state) : js state :=
  o <- catch
         (fresh <- fetchCurrentUser (get "token" (toStore p)) get_me ;;
          ret (assign_role_id fresh (toStore p)))
         (fun _ => ret (toStore p)) ;;
  login_commit_checked now (mkPending o (expiresAt p)) st.

(** [login(userData)] as a whole, as [Auth.login] but with the write that
    can throw.  An exception leaves the component as it was: nothing is
    assigned before the write. *)
Definition login_checked (now now' : Z) (userData : value)
           (get_me : http_result) (st : state) : js state :=
  let p := login_prepare now userData in
  if wants_role p then login_resume_checked now' p get_me st
  else login_commit_checked now p st.

End Platform.

End StoreQuota.
Import StoreQuota.

(* ===================================================================== *)
(** ** Further notions and inputs *)
(* ===================================================================== *)

Module Further.

(** The events that happen without the user or the network: renders and
    timer callbacks. *)
Definition passive (ev : event) : bool :=
  match ev with
  | Render _ | Fire _ _ => true
  | _ => false
  end.


Definition other_token : value := VObj [("token", VStr "t2")].


(** A store that takes no value at all. *)
Definition full_store (s : string) : bool := false.

(** The body of a profile response and the user object it carries. *)
Definition profile_user : obj :=
  [("_id", VNum (Int 7)); ("role", VStr "admin")].

Definition profile_body : value := VObj [("user", VObj profile_user)].

(** The body of a login response and the user object it carries. *)
Definition login_user : obj :=
  [("_id", VStr "u7"); ("username", VStr "bob")].

Definition login_body : value :=
  VObj [("user", VObj login_user); ("token", VStr "jwt")].


(** A row of the admin list. *)
Definition own_row : obj :=
  [("userId", VStr "u7"); ("username", VStr "bob"); ("role", VStr "admin")].

Definition other_row : obj :=
  [("userId", VStr "u9"); ("username", VStr "eve"); ("role", VStr "admin")].

(** A signed-in administrator, as the admin list sees it. *)
Definition signed_admin : value :=
  VObj [("id", VStr "u7"); ("username", VStr "bob"); ("role", VStr "admin");
        ("token", VStr "jwt")].

End Further.
Import Further.

(* ===================================================================== *)
(** ** Properties of the values and of the service helpers *)
(* ===================================================================== *)

Lemma get_set_same k v o : get k (set k v o) = v.
Proof.
  induction o as [|[k' v'] o IH]; simpl.
  - now rewrite String.eqb_refl.
  - destruct (k =? k')%string eqn:E; simpl; rewrite E; auto.
Qed.

Lemma get_set_other k k' v o : k <> k' -> get k (set k' v o) = get k o.
Proof.
  intros Hne. induction o as [|[k2 v2] o IH]; simpl.
  - apply String.eqb_neq in Hne. now rewrite Hne.
  - destruct (k' =? k2)%string eqn:E; simpl.
    + apply String.eqb_eq in E. subst k2.
      apply String.eqb_neq in Hne. now rewrite Hne.
    + destruct (k =? k2)%string; auto.
Qed.

(** A property that [more] does not name is read from [base]. *)
Lemma get_spread_into k base more :
  (forall v, ~ In (k, v) more) ->
  get k (spread_into base more) = get k base.
Proof.
  unfold spread_into. revert base.
  induction more as [|[k' v'] more IH]; intros base Hnot; simpl; auto.
  rewrite IH.
  - apply get_set_other. intros ->. apply (Hnot v'). now left.
  - intros v Hin. apply (Hnot v). now right.
Qed.

Lemma rest_of_not_picked k v raw :
  is_picked k = true -> ~ In (k, v) (rest_of raw).
Proof.
  unfold rest_of. intros Hp Hin. apply filter_In in Hin.
  destruct Hin as [_ Hf]. simpl in Hf. now rewrite Hp in Hf.
Qed.

Lemma get_rest_of_picked k raw :
  is_picked k = true -> get k (rest_of raw) = VUndefined.
Proof.
  intros Hp. induction raw as [|[k' v'] raw IH]; simpl; auto.
  destruct (is_picked k') eqn:E; simpl; auto.
  destruct (k =? k')%string eqn:Ek; auto.
  apply String.eqb_eq in Ek. subst k'. congruence.
Qed.


(** The object [normalizeUser] builds, property by property. *)
Lemma normalizeUser_object (o : obj) :
  exists n,
    normalizeUser (VObj o) = VObj n /\
    get "role" n = (get "role" o ||| VStr "user") /\
    get "id" n = coalesce [get "id" o; get "_id" o; get "userId" o].
Proof.
  unfold normalizeUser. simpl.
  eexists. split; [reflexivity|]. split.
  - rewrite get_spread_into by (intros v; now apply rest_of_not_picked).
    simpl. rewrite (get_rest_of_picked "role") by reflexivity.
    unfold or_else.
    destruct (truthy (get "role" o)) eqn:E; simpl; now rewrite ?E.
  - rewrite get_spread_into by (intros v; now apply rest_of_not_picked).
    simpl. rewrite (get_rest_of_picked "id") by reflexivity.
    unfold or_else.
    destruct (truthy (get "id" o)) eqn:E1; rewrite ?E1; auto;
    destruct (truthy (get "_id" o)) eqn:E2; rewrite ?E2; auto;
    destruct (truthy (get "userId" o)) eqn:E3; rewrite ?E3; auto.
Qed.

(** [normalizeUser] keeps the truth value of its argument: a falsy value is
    returned as it is, and anything else is returned as it is or as an
    object. *)
Lemma truthy_normalizeUser raw : truthy (normalizeUser raw) = truthy raw.
Proof.
  unfold normalizeUser.
  destruct (truthy raw) eqn:E; simpl; auto.
  destruct (is_object_type raw); simpl; auto.
Qed.

(* ===================================================================== *)
(** ** Properties of the session manager *)
(* ===================================================================== *)


Lemma armed_single e st : armed e st -> single_timer st.
Proof.
  intros [h [Ht Hr]]. split; rewrite Ht; simpl; auto.
  intros t [<-|[]]. exact Hr.
Qed.

Lemma disarmed_single st : disarmed st -> single_timer st.
Proof.
  intros [Ht Hr]. split; rewrite Ht; simpl; auto. intros t [].
Qed.

Lemma clearLogoutTimer_user st : user (clearLogoutTimer st) = user st.
Proof. unfold clearLogoutTimer. now destruct (logoutTimerRef st). Qed.

Lemma clearLogoutTimer_storage st :
  storage (clearLogoutTimer st) = storage st.
Proof. unfold clearLogoutTimer. now destruct (logoutTimerRef st). Qed.

Lemma clearLogoutTimer_ready st : ready (clearLogoutTimer st) = ready st.
Proof. unfold clearLogoutTimer. now destruct (logoutTimerRef st). Qed.

Lemma clearLogoutTimer_dep st :
  effect_dep (clearLogoutTimer st) = effect_dep st.
Proof. unfold clearLogoutTimer. now destruct (logoutTimerRef st). Qed.

Lemma clearLogoutTimer_ref st : logoutTimerRef (clearLogoutTimer st) = None.
Proof. unfold clearLogoutTimer. now destruct (logoutTimerRef st) eqn:E. Qed.

(** Clearing the ref's timeout leaves nothing pending, provided nothing
    but the ref's timeout was pending. *)
Lemma clearLogoutTimer_disarmed st :
  single_timer st -> disarmed (clearLogoutTimer st).
Proof.
  intros [_ Href]. split; [|apply clearLogoutTimer_ref].
  unfold clearLogoutTimer. destruct (logoutTimerRef st) as [h|] eqn:E; simpl.
  - destruct (timers st) as [|t ts] eqn:Et; auto.
    assert (forall l : list (nat * Z),
               (forall x, In x l -> fst x = h) ->
               filter (fun x => negb (Nat.eqb (fst x) h)) l = [])
      as Hall.
    { induction l as [|x l IH]; intros Hl; simpl; auto.
      rewrite (Hl x) by now left. rewrite Nat.eqb_refl. simpl.
      apply IH. intros y Hy. apply Hl. now right. }
    apply Hall. intros x Hx. specialize (Href x Hx). congruence.
  - destruct (timers st) as [|t ts]; auto.
    specialize (Href t (or_introl eq_refl)). discriminate.
Qed.

Lemma logout_user st : user (logout st) = VNull.
Proof. unfold logout. now rewrite clearLogoutTimer_user. Qed.

Lemma logout_storage st : storage (logout st) = None.
Proof. unfold logout. now rewrite clearLogoutTimer_storage. Qed.

Lemma single_timer_ext st st' :
  timers st' = timers st -> logoutTimerRef st' = logoutTimerRef st ->
  single_timer st -> single_timer st'.
Proof. unfold single_timer. intros -> ->. auto. Qed.

Lemma logout_disarmed st : single_timer st -> disarmed (logout st).
Proof.
  intros H. unfold logout. apply clearLogoutTimer_disarmed.
  revert H. now apply single_timer_ext.
Qed.

Lemma clearTimeout_single h st :
  single_timer st -> single_timer (clearTimeout h st).
Proof.
  intros [Hlen Href]. split; simpl.
  - etransitivity; [apply filter_length_le | exact Hlen].
  - intros t Ht. apply filter_In in Ht. now apply Href.
Qed.

Section SessionManager.

Variable JSON_parse : string -> js value.
Variable JSON_stringify : value -> string.
Variable StringToNumber : string -> number.

Local Abbreviation ToNumber := (ToNumber StringToNumber).
Local Abbreviation scheduleAutoLogout := (scheduleAutoLogout StringToNumber).
Local Abbreviation hydrate := (hydrate JSON_parse StringToNumber).
Local Abbreviation mount := (mount JSON_parse StringToNumber).
Local Abbreviation login_commit := (login_commit JSON_stringify StringToNumber).
Local Abbreviation login_resume := (login_resume JSON_stringify StringToNumber).
Local Abbreviation render := (render StringToNumber).
Local Abbreviation expiry_effect := (expiry_effect StringToNumber).
Local Abbreviation step := (step JSON_stringify StringToNumber).
Local Abbreviation run := (run JSON_stringify StringToNumber).
Local Abbreviation login_call := (login_call JSON_stringify StringToNumber).
Local Abbreviation login := (login JSON_stringify StringToNumber).
Local Abbreviation expired := (expired StringToNumber).

(** *** Arming *)

Lemma scheduleAutoLogout_falsy now ex st :
  truthy ex = false ->
  scheduleAutoLogout now ex st = clearLogoutTimer st.
Proof. unfold Auth.scheduleAutoLogout. now intros ->. Qed.

Lemma scheduleAutoLogout_past now ex e st :
  truthy ex = true -> ToNumber ex = Int e -> e <= now ->
  scheduleAutoLogout now ex st = logout (clearLogoutTimer st).
Proof.
  intros Ht Hn Hle. unfold Auth.scheduleAutoLogout. rewrite Ht, Hn. simpl.
  destruct (Z.leb_spec (e - now) 0); [reflexivity | lia].
Qed.

Lemma scheduleAutoLogout_future now ex e st :
  truthy ex = true -> ToNumber ex = Int e -> now < e ->
  let st' := scheduleAutoLogout now ex st in
  user st' = user st /\ storage st' = storage st /\
  ready st' = ready st /\ effect_dep st' = effect_dep st /\
  (single_timer st -> armed e st').
Proof.
  intros Ht Hn Hlt. unfold Auth.scheduleAutoLogout. rewrite Ht, Hn. simpl.
  destruct (Z.leb_spec (e - now) 0); [lia|]. simpl.
  rewrite clearLogoutTimer_user, clearLogoutTimer_storage,
    clearLogoutTimer_ready, clearLogoutTimer_dep.
  repeat split; auto.
  intros Hs. destruct (clearLogoutTimer_disarmed st Hs) as [Htm _].
  exists (next_handle (clearLogoutTimer st)). simpl. rewrite Htm. simpl.
  split; auto. do 2 f_equal. lia.
Qed.

(** Whatever [expiresAt] is, arming leaves at most the ref's timeout
    pending. *)
Lemma scheduleAutoLogout_single now ex st :
  single_timer st -> single_timer (scheduleAutoLogout now ex st).
Proof.
  intros Hs. unfold Auth.scheduleAutoLogout.
  pose proof (clearLogoutTimer_disarmed st Hs) as Hd.
  destruct (truthy ex); simpl.
  - destruct (leb _ _).
    + apply disarmed_single, logout_disarmed, disarmed_single, Hd.
    + destruct Hd as [Htm _]. split; simpl; rewrite Htm; simpl; auto.
      intros t [<-|[]]. reflexivity.
  - now apply disarmed_single.
Qed.

(** *** Rehydration *)


Lemma hydrate_absent now st :
  storage st = None -> hydrate now st = inr (setReady true st).
Proof. unfold Auth.hydrate. now intros ->. Qed.

Lemma hydrate_empty now st :
  storage st = Some "" -> hydrate now st = inr (setReady true st).
Proof. unfold Auth.hydrate. now intros ->. Qed.

Lemma hydrate_unparsable now st raw e :
  storage st = Some raw -> raw <> "" -> JSON_parse raw = inl e ->
  hydrate now st = inr (setReady true (removeItem st)).
Proof.
  unfold Auth.hydrate. intros -> Hne Hp.
  apply String.eqb_neq in Hne. rewrite Hne, Hp. reflexivity.
Qed.

Lemma hydrate_parsed now st raw rec :
  storage st = Some raw -> raw <> "" -> JSON_parse raw = inr rec ->
  hydrate now st =
  inr (setReady true
         (if expired now rec then removeItem st else setUser rec st)).
Proof.
  unfold Auth.hydrate, expired. intros -> Hne Hp.
  apply String.eqb_neq in Hne. rewrite Hne, Hp. cbn -[geb].
  now destruct (truthy (opt_get rec "expiresAt") &&
                geb (Int now) (ToNumber (opt_get rec "expiresAt"))).
Qed.

(** No exception escapes the first effect. *)
Lemma hydrate_total now st : exists st', hydrate now st = inr st'.
Proof.
  destruct (storage st) as [raw|] eqn:Es.
  - destruct (string_dec raw "") as [->|Hne].
    + eexists. now apply hydrate_empty.
    + destruct (JSON_parse raw) as [e|rec] eqn:Ep; eexists.
      * eapply hydrate_unparsable; eauto.
      * eapply hydrate_parsed; eauto.
  - eexists. now apply hydrate_absent.
Qed.

(** The first effect sets no timeout and leaves the ref alone. *)
Lemma hydrate_timers now st st' :
  hydrate now st = inr st' ->
  timers st' = timers st /\ logoutTimerRef st' = logoutTimerRef st /\
  ready st' = true.
Proof.
  intros H. destruct (storage st) as [raw|] eqn:Es.
  - destruct (string_dec raw "") as [->|Hne].
    + rewrite (hydrate_empty now st Es) in H. inversion H. now subst.
    + destruct (JSON_parse raw) as [e|rec] eqn:Ep.
      * rewrite (hydrate_unparsable now st raw e Es Hne Ep) in H.
        inversion H. now subst.
      * rewrite (hydrate_parsed now st raw rec Es Hne Ep) in H.
        inversion H. subst. now destruct (expired now rec).
  - rewrite (hydrate_absent now st Es) in H. inversion H. now subst.
Qed.

Lemma mount_hydrate now stored st :
  mount now stored = inr st ->
  exists st0, hydrate now (initial stored) = inr st0 /\
              st = set_dep VUndefined st0.
Proof.
  unfold Auth.mount. intros H.
  destruct (hydrate_total now (initial stored)) as [st0 H0].
  fold hydrate in H. rewrite H0 in H. simpl in H. inversion H.
  exists st0. split; auto.
  destruct (hydrate_timers now _ _ H0) as [_ [Hr _]]. simpl in Hr.
  unfold clearLogoutTimer. now rewrite Hr.
Qed.

Lemma mount_disarmed now stored st :
  mount now stored = inr st -> disarmed st /\ ready st = true.
Proof.
  intros H. destruct (mount_hydrate _ _ _ H) as [st0 [H0 ->]].
  destruct (hydrate_timers now _ _ H0) as [Ht [Hr Hrd]].
  repeat split; simpl; auto.
Qed.

(** *** Login *)


Lemma login_resume_commit now p get_me st :
  login_resume now p get_me st =
  inr (login_commit now (mkPending (enriched p get_me) (expiresAt p)) st).
Proof.
  unfold Auth.login_resume, enriched.
  now destruct (fetchCurrentUser _ get_me).
Qed.

Lemma assign_role_id_get fresh o k :
  k <> "role" -> k <> "id" -> get k (assign_role_id fresh o) = get k o.
Proof.
  intros H1 H2. unfold assign_role_id.
  now rewrite !get_set_other by assumption.
Qed.

Lemma enriched_get p get_me k :
  k <> "role" -> k <> "id" -> get k (enriched p get_me) = get k (toStore p).
Proof.
  intros H1 H2. unfold enriched.
  destruct (fetchCurrentUser _ get_me); auto using assign_role_id_get.
Qed.

Lemma enriched_rejected p e : enriched p (inl e) = toStore p.
Proof.
  unfold enriched, fetchCurrentUser.
  now destruct (truthy (get "token" (toStore p))).
Qed.

(** [login] completing while its [expiresAt] is still ahead: the session
    is persisted, is the in-memory state, and one timeout is pending. *)
Lemma login_commit_future now p e st :
  truthy (expiresAt p) = true -> ToNumber (expiresAt p) = Int e -> now < e ->
  let st' := login_commit now p st in
  user st' = VObj (toStore p) /\
  storage st' = Some (JSON_stringify (VObj (toStore p))) /\
  ready st' = ready st /\ effect_dep st' = effect_dep st /\
  (single_timer st -> armed e st').
Proof.
  intros Ht Hn Hlt. unfold Auth.login_commit.
  destruct (scheduleAutoLogout_future now (expiresAt p) e
              (setUser (VObj (toStore p))
                 (setItem (JSON_stringify (VObj (toStore p))) st)) Ht Hn Hlt)
    as [Hu [Hst [Hr [Hd Ha]]]].
  cbv zeta. rewrite Hu, Hst, Hr, Hd.
  split; [|split; [|split; [|split]]]; auto.
Qed.


Lemma login_commit_single now p st :
  single_timer st -> single_timer (login_commit now p st).
Proof.
  intros Hs. apply scheduleAutoLogout_single.
  revert Hs. now apply single_timer_ext.
Qed.

(** *** Rendering *)


(** Rendering an armed session before its expiry leaves it armed for the
    same instant. *)
Lemma render_armed now e st :
  truthy (opt_get (user st) "expiresAt") = true ->
  ToNumber (opt_get (user st) "expiresAt") = Int e -> now < e ->
  armed e st ->
  let st' := render now st in
  armed e st' /\ user st' = user st /\ storage st' = storage st.
Proof.
  intros Ht Hn Hlt Ha. unfold Auth.render. cbv zeta.
  destruct (same_value _ _); auto.
  unfold Auth.expiry_effect.
  rewrite clearLogoutTimer_user. simpl user. rewrite Ht.
  destruct (scheduleAutoLogout_future now (opt_get (user st) "expiresAt") e
              (clearLogoutTimer (set_dep (opt_get (user st) "expiresAt") st))
              Ht Hn Hlt) as [Hu [Hs [_ [_ Ha']]]].
  rewrite Hu, Hs, clearLogoutTimer_user, clearLogoutTimer_storage.
  split; [|split]; auto. apply Ha'.
  apply disarmed_single, clearLogoutTimer_disarmed.
  apply armed_single in Ha. revert Ha. now apply single_timer_ext.
Qed.

(** Rendering without a session that carries an expiry leaves nothing
    pending. *)
Lemma render_disarmed now st :
  truthy (opt_get (user st) "expiresAt") = false ->
  disarmed st ->
  let st' := render now st in
  disarmed st' /\ user st' = user st /\ storage st' = storage st.
Proof.
  intros Ht Hd. unfold Auth.render. cbv zeta.
  destruct (same_value _ _); auto.
  unfold Auth.expiry_effect.
  rewrite clearLogoutTimer_user. simpl user. rewrite Ht.
  rewrite !clearLogoutTimer_user, !clearLogoutTimer_storage. simpl.
  repeat split.
  - apply clearLogoutTimer_disarmed, disarmed_single,
      clearLogoutTimer_disarmed, disarmed_single.
    destruct Hd. now split.
  - apply clearLogoutTimer_ref.
Qed.

(** *** The single-timer invariant *)



(** *** Whole login calls *)

Lemma nth_error_snoc {A : Type} (l : list A) (x : A) :
  nth_error (l ++ [x]) (List.length l) = Some x.
Proof. induction l; simpl; auto. Qed.

Lemma remove_nth_snoc {A : Type} (l : list A) (x : A) :
  remove_nth (List.length l) (l ++ [x]) = l.
Proof. induction l; simpl; auto. now f_equal. Qed.

(** A call that asks for the role: the state is untouched until the
    request settles, and then holds what [login_commit] makes of the
    enriched record. *)
Lemma login_call_enriching t s userData get_me w :
  wants_role (login_prepare t userData) = true ->
  login_call t s userData get_me w =
  mkWorld (login_commit s
             (mkPending (enriched (login_prepare t userData) get_me)
                        (expiresAt (login_prepare t userData)))
             (app w))
          (inflight w).
Proof.
  intros Hw. unfold Auth.login_call. simpl. rewrite Hw. simpl.
  rewrite nth_error_snoc. fold login_resume.
  rewrite login_resume_commit, remove_nth_snoc. reflexivity.
Qed.

(** A call that does not ask for the role completes at once. *)
Lemma login_call_direct t s userData get_me w :
  wants_role (login_prepare t userData) = false ->
  login_call t s userData get_me w =
  mkWorld (login_commit t (login_prepare t userData) (app w)) (inflight w).
Proof.
  intros Hw. unfold Auth.login_call. simpl. rewrite Hw. simpl.
  assert (nth_error (inflight w) (List.length (inflight w)) = None) as ->
    by (apply nth_error_None; lia).
  reflexivity.
Qed.

(** The two events of a whole call compose to [login]. *)
Lemma login_call_login t s userData get_me w :
  login t s userData get_me (app w) =
  inr (app (login_call t s userData get_me w)).
Proof.
  unfold Auth.login.
  destruct (wants_role (login_prepare t userData)) eqn:Hw.
  - rewrite login_call_enriching by exact Hw. apply login_resume_commit.
  - rewrite login_call_direct by exact Hw. reflexivity.
Qed.


Lemma login_prepare_expiresAt now userData :
  get "expiresAt" (toStore (login_prepare now userData)) =
  expiresAt (login_prepare now userData).
Proof. apply get_set_same. Qed.


(* ===================================================================== *)
(** ** The claims about rehydration *)
(* ===================================================================== *)

(** C1 (as amended).  Every record that the first effect restores as the
    active session is the parsed contents of the persisted entry, which
    stays in the store, and it is not expired: its [expiresAt] is falsy
    (absent) or a value the clock has not reached.  Nothing checks that
    [token] or [expiresAt] is present. *)
Theorem C1_restored_record_is_parsed_and_unexpired now stored st :
  mount now stored = inr st ->
  authenticated st = true ->
  exists raw,
    stored = Some raw /\ raw <> "" /\
    JSON_parse raw = inr (user st) /\
    expired now (user st) = false /\
    storage st = stored.
Proof.
  intros Hm Ha. destruct (mount_hydrate _ _ _ Hm) as [st0 [H0 ->]].
  unfold authenticated in Ha. simpl in *.
  destruct stored as [raw|].
  - exists raw. destruct (string_dec raw "") as [->|Hne].
    + rewrite hydrate_empty in H0 by reflexivity.
      inversion H0. subst. discriminate.
    + destruct (JSON_parse raw) as [e|rec] eqn:Ep.
      * rewrite (hydrate_unparsable now (initial (Some raw)) raw e
                   eq_refl Hne Ep) in H0.
        inversion H0. subst. discriminate.
      * rewrite (hydrate_parsed now (initial (Some raw)) raw rec
                   eq_refl Hne Ep) in H0.
        inversion H0. subst. clear H0.
        destruct (expired now rec) eqn:Ex; simpl in *; [discriminate|].
        repeat split; auto.
  - rewrite hydrate_absent in H0 by reflexivity.
    inversion H0. subst. discriminate.
Qed.

(** C4 (as amended).  For every persisted record whose [expiresAt] is a
    non-zero timestamp less than or equal to the current time, mounting
    ends unauthenticated with the persisted entry removed, and no timeout
    is pending then or after any later render. *)
Theorem C4_expired_record_is_discarded now raw rec e :
  raw <> "" ->
  JSON_parse raw = inr rec ->
  opt_get rec "expiresAt" = VNum (Int e) ->
  e <> 0 -> e <= now ->
  exists st,
    mount now (Some raw) = inr st /\
    authenticated st = false /\ user st = VNull /\ storage st = None /\
    disarmed st /\
    forall t, disarmed (render t st) /\ user (render t st) = VNull.
Proof.
  intros Hne Hp He Hnz Hle.
  assert (expired now rec = true) as Hex.
  { unfold expired. rewrite He. simpl.
    apply andb_true_intro. split.
    - apply negb_true_iff. now apply Z.eqb_neq.
    - now apply Z.leb_le. }
  destruct (hydrate_total now (initial (Some raw))) as [st0 H0].
  pose proof H0 as H0'.
  rewrite (hydrate_parsed now (initial (Some raw)) raw rec eq_refl Hne Hp),
    Hex in H0'.
  inversion H0'. subst st0. clear H0'.
  eexists. split.
  { unfold Auth.mount. fold hydrate. rewrite H0. reflexivity. }
  simpl. do 3 (split; [reflexivity|]). split; [now split|].
  intros t.
  destruct (render_disarmed t
              (set_dep VUndefined
                 (clearLogoutTimer
                    (setReady true (removeItem (initial (Some raw))))))
              eq_refl) as [Hd [Hu _]]; [now split|].
  split; [exact Hd | exact Hu].
Qed.

(** C6 (as amended).  For every non-empty persisted value that
    [JSON.parse] rejects, mounting returns normally (no exception escapes),
    unauthenticated and ready, with the persisted entry removed and no
    timeout pending. *)
Theorem C6_unparsable_record_is_cleared now raw e :
  raw <> "" ->
  JSON_parse raw = inl e ->
  exists st,
    mount now (Some raw) = inr st /\
    authenticated st = false /\ user st = VNull /\ storage st = None /\
    disarmed st /\ ready st = true.
Proof.
  intros Hne Hp. eexists. split.
  { unfold Auth.mount. fold hydrate.
    rewrite (hydrate_unparsable now (initial (Some raw)) raw e
               eq_refl Hne Hp).
    reflexivity. }
  simpl. repeat split.
Qed.

(* ===================================================================== *)
(** ** The claims about login, logout and the timer *)
(* ===================================================================== *)

Lemma run_renders_armed renders e w :
  Forall (fun r => r < e) renders ->
  truthy (opt_get (user (app w)) "expiresAt") = true ->
  ToNumber (opt_get (user (app w)) "expiresAt") = Int e ->
  armed e (app w) ->
  let w' := run (map Render renders) w in
  armed e (app w') /\ user (app w') = user (app w) /\
  storage (app w') = storage (app w).
Proof.
  intros Hall. revert w.
  induction Hall as [|r renders Hr Hall IH]; intros w Ht Hn Ha; simpl; auto.
  destruct (render_armed r e (app w) Ht Hn Hr Ha) as [Ha' [Hu Hs]].
  destruct (IH (mkWorld (render r (app w)) (inflight w))) as [Ha2 [Hu2 Hs2]];
    simpl; try rewrite Hu; auto.
  simpl in *. rewrite Hu2, Hs2, Hu, Hs. auto.
Qed.

(** The pending timeout of an armed session cannot fire before it is due;
    when it fires, the session is logged out. *)
Lemma fire_armed now h e w :
  timers (app w) = [(h, e)] ->
  logoutTimerRef (app w) = Some h ->
  (now < e -> step (Fire now h) w = w) /\
  (e <= now ->
   let w' := step (Fire now h) w in
   user (app w') = VNull /\ storage (app w') = None /\ disarmed (app w')).
Proof.
  intros Ht Hr. simpl. rewrite Ht. unfold is_due. simpl.
  rewrite Nat.eqb_refl. simpl. rewrite orb_false_r. split; intros H.
  - destruct (Z.leb_spec e now); [lia | reflexivity].
  - destruct (Z.leb_spec e now); [|lia]. simpl.
    rewrite logout_user, logout_storage. repeat split.
    + apply logout_disarmed, clearTimeout_single.
      apply (armed_single e). exists h. auto.
    + apply logout_disarmed, clearTimeout_single.
      apply (armed_single e). exists h. auto.
Qed.

(** C2 (as amended).  When [logout()] runs while the profile request of a
    [login] call is pending, the settlement of that request is not
    discarded: the suspended call resumes, writes its session to the
    persisted entry and to the in-memory state and arms the timeout, so
    that (its [expiresAt] still being ahead) the final state is
    authenticated. *)
Theorem C2_settled_login_is_applied_after_logout w i p get_me now e :
  nth_error (inflight w) i = Some p ->
  truthy (expiresAt p) = true ->
  ToNumber (expiresAt p) = Int e ->
  now < e ->
  let w1 := step Logout w in
  let w2 := step (Settle now i get_me) w1 in
  authenticated (app w1) = false /\ storage (app w1) = None /\
  user (app w2) = VObj (enriched p get_me) /\
  storage (app w2) = Some (JSON_stringify (VObj (enriched p get_me))) /\
  authenticated (app w2) = true /\
  (single_timer (app w) -> armed e (app w2)).
Proof.
  intros Hi Ht Hn Hlt. cbv zeta. simpl. rewrite Hi.
  fold login_resume. rewrite login_resume_commit. simpl.
  destruct (login_commit_future now
              (mkPending (enriched p get_me) (expiresAt p))
              e (logout (app w)) Ht Hn Hlt) as [Hu [Hs [_ [_ Ha]]]].
  unfold authenticated. rewrite logout_user, logout_storage, Hu, Hs.
  simpl. do 5 (split; [reflexivity|]).
  intros Hs1. now apply Ha, disarmed_single, logout_disarmed.
Qed.

(** C3 (as amended).  [login({ token: "t1" })] at clock reading 1000 with
    the default one-hour window: whatever the profile request returns, and
    whenever it settles and the component re-renders before the expiry, the
    session has [expiresAt = 3601000] (1000 + 3600000), exactly one timeout
    is pending, due at 3601000; it does not fire earlier, and when it fires
    at 3601000 the state is unauthenticated and the persisted entry is
    removed. *)
Theorem C3_login_default_expiry_and_timer w get_me t renders :
  single_timer (app w) ->
  t < 3601000 ->
  Forall (fun r => r < 3601000) renders ->
  let userData := VObj [("token", VStr "t1")] in
  let w1 := step (Login 1000 userData) w in
  let w2 := step (Settle t (List.length (inflight w)) get_me) w1 in
  let w3 := run (map Render renders) w2 in
  opt_get (user (app w3)) "expiresAt" = VNum (Int 3601000) /\
  opt_get (user (app w3)) "token" = VStr "t1" /\
  authenticated (app w3) = true /\
  storage (app w3) = Some (JSON_stringify (user (app w3))) /\
  exists h,
    timers (app w3) = [(h, 3601000)] /\
    logoutTimerRef (app w3) = Some h /\
    (forall now, now < 3601000 -> step (Fire now h) w3 = w3) /\
    let w4 := step (Fire 3601000 h) w3 in
    authenticated (app w4) = false /\ user (app w4) = VNull /\
    storage (app w4) = None /\ disarmed (app w4).
Proof.
  intros Hs Ht Hall. cbv zeta.
  change (step (Settle t (List.length (inflight w)) get_me)
            (step (Login 1000 (VObj [("token", VStr "t1")])) w))
    with (login_call 1000 t (VObj [("token", VStr "t1")]) get_me w).
  rewrite login_call_enriching by reflexivity.
  set (p := login_prepare 1000 (VObj [("token", VStr "t1")])).
  set (p' := mkPending (enriched p get_me) (expiresAt p)).
  assert (truthy (expiresAt p') = true) as Htr by reflexivity.
  assert (ToNumber (expiresAt p') = Int 3601000) as Hnum by reflexivity.
  destruct (login_commit_future t p' 3601000 (app w) Htr Hnum Ht)
    as [Hu [Hst [_ [_ Ha]]]].
  specialize (Ha Hs).
  assert (opt_get (VObj (toStore p')) "expiresAt" = VNum (Int 3601000)) as He.
  { simpl. now rewrite enriched_get by discriminate. }
  assert (opt_get (VObj (toStore p')) "token" = VStr "t1") as Hk.
  { simpl. now rewrite enriched_get by discriminate. }
  set (w2 := mkWorld (login_commit t p' (app w)) (inflight w)).
  assert (truthy (opt_get (user (app w2)) "expiresAt") = true) as Ht2
    by (simpl; now rewrite Hu, He).
  assert (ToNumber (opt_get (user (app w2)) "expiresAt") = Int 3601000)
    as Hn2 by (simpl; now rewrite Hu, He).
  destruct (run_renders_armed renders 3601000 w2 Hall Ht2 Hn2 Ha)
    as [Ha3 [Hu3 Hs3]].
  simpl in Hu3, Hs3. rewrite Hu in Hu3. rewrite Hst in Hs3.
  unfold authenticated. rewrite Hu3, Hs3, He, Hk.
  do 4 (split; [reflexivity|]).
  destruct Ha3 as [h [Htm Href]]. exists h.
  destruct (fire_armed 3601000 h 3601000 _ Htm Href) as [_ Hfire].
  specialize (Hfire (Z.le_refl _)). cbv zeta in Hfire.
  destruct Hfire as [Hu4 [Hs4 Hd4]].
  do 2 (split; [assumption|]). split.
  - intros now Hnow. now apply (fire_armed now h 3601000).
  - cbv zeta. unfold authenticated. rewrite Hu4.
    do 3 (split; [assumption || reflexivity|]). exact Hd4.
Qed.


(** C9.  For every call [login({ token })] whose profile request is
    rejected (before the session's own expiry), the rejection is swallowed:
    [login] completes without throwing, and the state is authenticated
    with a session that holds the supplied token, the computed
    [expiresAt] and no role, persisted as it is. *)
Theorem C9_enrichment_failure_is_swallowed w token now t err :
  token <> "" ->
  0 <= now ->
  t < now + 3600000 ->
  let userData := VObj [("token", VStr token)] in
  let session :=
    VObj [("token", VStr token); ("expiresAt", VNum (Int (now + 3600000)))] in
  let w1 := step (Login now userData) w in
  let w2 := step (Settle t (List.length (inflight w)) (inl err)) w1 in
  app w1 = app w /\
  login now t userData (inl err) (app w) = inr (app w2) /\
  authenticated (app w2) = true /\
  user (app w2) = session /\
  opt_get (user (app w2)) "token" = VStr token /\
  opt_get (user (app w2)) "role" = VUndefined /\
  storage (app w2) = Some (JSON_stringify session) /\
  (single_timer (app w) -> armed (now + 3600000) (app w2)).
Proof.
  intros Htok Hnow Ht. cbv zeta.
  assert (truthy (VStr token) = true) as Htt.
  { simpl. apply negb_true_iff. now apply String.eqb_neq. }
  set (userData := VObj [("token", VStr token)]).
  set (e := now + 3600000).
  set (p := mkPending [("token", VStr token); ("expiresAt", VNum (Int e))]
                      (VNum (Int e))).
  assert (login_prepare now userData = p) as Hp by reflexivity.
  assert (wants_role p = true) as Hw.
  { unfold wants_role. cbn -[truthy]. now rewrite Htt. }
  change (step (Settle t (List.length (inflight w)) (inl err))
            (step (Login now userData) w))
    with (login_call now t userData (inl err) w).
  rewrite login_call_login.
  rewrite login_call_enriching by (rewrite Hp; exact Hw).
  assert (step (Login now userData) w = mkWorld (app w) (inflight w ++ [p]))
    as ->.
  { unfold Auth.step. rewrite Hp, Hw. reflexivity. }
  rewrite Hp, enriched_rejected.
  assert (truthy (expiresAt p) = true) as Hte.
  { simpl. apply negb_true_iff. apply Z.eqb_neq. unfold e. lia. }
  destruct (login_commit_future t (mkPending (toStore p) (expiresAt p))
              e (app w) Hte eq_refl Ht) as [Hu [Hs [_ [_ Ha]]]].
  unfold authenticated. cbn [app]. rewrite Hu, Hs.
  cbn [toStore p opt_get get String.eqb Ascii.eqb Bool.eqb truthy].
  repeat split; auto.
Qed.

End SessionManager.

(* ===================================================================== *)
(** ** The claims about the service helpers *)
(* ===================================================================== *)

(** C7.  On a login response with a success status, [loginUser] throws its
    malformed-response error exactly when [token] or [user] is missing
    (falsy) in the body, and throws nothing else; when both are there it
    returns the pair of the normalized user and the token.  The login form
    calls the session manager's [login] only with a returned pair: on a
    malformed response the session state is left as it was. *)
Theorem C7_loginUser_malformed_response
        (JSON_stringify : value -> string) (StringToNumber : string -> number)
        (data : value) :
  let token := opt_get data "token" in
  let user := opt_get data "user" in
  (loginUser (inr data) = inl malformed_login <->
   truthy token = false \/ truthy user = false) /\
  (forall e, loginUser (inr data) = inl e -> e = malformed_login) /\
  (loginUser (inr data) =
   if truthy token && truthy user
   then inr (VObj [("user", normalizeUser user); ("token", token)])
   else inl malformed_login) /\
  (forall now w,
      handleSubmit JSON_stringify StringToNumber now (inr data) w =
      if truthy token && truthy user
      then step JSON_stringify StringToNumber
             (Login now (VObj (set "token" token
                                 (spread (normalizeUser user))))) w
      else w).
Proof.
  cbv zeta. unfold handleSubmit, loginUser.
  cbn [bind ret raise Monad_either Exception_either].
  rewrite truthy_normalizeUser.
  destruct (truthy (opt_get data "token")), (truthy (opt_get data "user"));
    simpl; (split; [split|split; [|split]]); try tauto; try discriminate;
    try (intros [?|?]; discriminate); try congruence; auto.
Qed.

(** C10.  For every raw user object, [normalizeUser] returns an object whose
    [role] is truthy: the raw role when that is truthy, and ["user"]
    otherwise; its [id] is the first truthy one of [id], [_id] and
    [userId].  [loginUser] and [fetchCurrentUser] return that object for a
    response that carries the raw object, so the user they return has a
    role. *)
Theorem C10_normalized_user_has_role (o : obj) :
  exists n,
    normalizeUser (VObj o) = VObj n /\
    truthy (get "role" n) = true /\
    get "role" n =
      (if truthy (get "role" o) then get "role" o else VStr "user") /\
    get "id" n = coalesce [get "id" o; get "_id" o; get "userId" o] /\
    (forall data,
        opt_get data "user" = VObj o ->
        truthy (opt_get data "token") = true ->
        loginUser (inr data) =
        inr (VObj [("user", VObj n); ("token", opt_get data "token")])) /\
    (forall token data,
        truthy token = true ->
        (opt_get data "user" ||| data) = VObj o ->
        fetchCurrentUser token (inr data) = inr (VObj n)).
Proof.
  destruct (normalizeUser_object o) as [n [Hn [Hrole Hid]]].
  exists n. split; [exact Hn|]. split; [|split; [|split; [exact Hid|split]]].
  - rewrite Hrole. unfold or_else. now destruct (truthy (get "role" o)) eqn:E.
  - rewrite Hrole. reflexivity.
  - intros data Hu Ht. unfold loginUser.
    cbn [bind ret raise Monad_either Exception_either].
    rewrite Hu, Hn, Ht. reflexivity.
  - intros token data Ht Hd. unfold fetchCurrentUser.
    cbn [bind ret raise Monad_either Exception_either].
    rewrite Ht, Hd, Hn. reflexivity.
Qed.

(* ===================================================================== *)
(** ** The reference codec round trip *)
(* ===================================================================== *)


Lemma stringify_obj fs : stringify (VObj fs) = "{" ++ members fs "" ++ "}".
Proof. reflexivity. Qed.

Lemma prune_obj fs : prune (VObj fs) = VObj (prune_fields fs).
Proof. reflexivity. Qed.

Lemma fuel_for_obj fs : fuel_for (VObj fs) = S (fuel_fields fs).
Proof. reflexivity. Qed.

(** Induction on values that reaches the values held in properties. *)
Lemma value_ind' (P : value -> Prop) :
  P VUndefined -> P VNull -> (forall b, P (VBool b)) ->
  (forall n, P (VNum n)) -> (forall s, P (VStr s)) ->
  (forall fs, Forall (fun kv => P (snd kv)) fs -> P (VObj fs)) ->
  forall v, P v.
Proof.
  intros Hu Hn Hb Hnum Hs Ho.
  fix IH 1.
  intros [| |b|n|s|fs];
    [exact Hu | exact Hn | apply Hb | apply Hnum | apply Hs |].
  apply Ho.
  induction fs as [|[k v] fs IHfs]; constructor; [apply IH | exact IHfs].
Qed.

Lemma append_assoc (a b c : string) : (a ++ b) ++ c = a ++ (b ++ c).
Proof. induction a; simpl; congruence. Qed.

Lemma length_append (a b : string) :
  String.length (a ++ b) = (String.length a + String.length b)%nat.
Proof. induction a; simpl; auto. Qed.

(** *** String literals *)

Lemma string_body_escape c rest :
  string_body (escape c ++ rest) = consc c (string_body rest).
Proof.
  destruct c as [[] [] [] [] [] [] [] []]; reflexivity.
Qed.

Lemma string_body_escape_all s rest :
  string_body (escape_all s ++ String dquote rest) = Some (s, rest).
Proof.
  induction s as [|c s IH]; simpl.
  - reflexivity.
  - rewrite append_assoc, string_body_escape, IH. reflexivity.
Qed.

(** *** Integer literals *)

Lemma digits_delimited rest :
  delimited rest = true -> digits rest = (Nil, rest).
Proof.
  destruct rest as [|c r]; simpl; auto.
  intros H. destruct (digits r) as [u r'].
  apply orb_true_iff in H.
  destruct H as [H|H]; apply Ascii.eqb_eq in H; subst c; reflexivity.
Qed.

Lemma digits_string_of_uint u rest :
  delimited rest = true ->
  digits (NilEmpty.string_of_uint u ++ rest) = (u, rest).
Proof.
  intros Hd. induction u; simpl; try (rewrite IHu; reflexivity).
  now apply digits_delimited.
Qed.

Lemma delimited_not_fraction rest :
  delimited rest = true -> starts_fraction rest = false.
Proof.
  destruct rest as [|c r]; simpl; auto. intros H.
  apply orb_true_iff in H.
  destruct H as [H|H]; apply Ascii.eqb_eq in H; subst c; reflexivity.
Qed.

Lemma unorm_D0 d d' : unorm d = D0 d' -> d' = Nil.
Proof.
  induction d; simpl; intros H; try discriminate; auto.
  now inversion H.
Qed.

Lemma to_uint_no_leading_zero p d : Pos.to_uint p <> D0 d.
Proof.
  intros H.
  assert (unorm (Pos.to_uint p) = Pos.to_uint p) as Hn.
  { rewrite <- (DecimalPos.Unsigned.to_of (Pos.to_uint p)).
    rewrite DecimalPos.Unsigned.of_to. reflexivity. }
  rewrite H in Hn. apply unorm_D0 in Hn. subst d.
  now apply (DecimalPos.Unsigned.to_uint_nonzero p).
Qed.

Lemma unsigned_literal_to_uint p rest :
  delimited rest = true ->
  unsigned_literal (NilEmpty.string_of_uint (Pos.to_uint p) ++ rest) =
  Some (Pos.to_uint p, rest).
Proof.
  intros Hd. unfold unsigned_literal.
  rewrite digits_string_of_uint, delimited_not_fraction by exact Hd.
  pose proof (to_uint_no_leading_zero p) as Hz.
  pose proof (DecimalPos.Unsigned.to_uint_nonnil p) as Hn.
  destruct (Pos.to_uint p) as [|d| | | | | | | | |]; try reflexivity.
  - congruence.
  - now destruct (Hz d).
Qed.

Lemma string_of_uint_nonnil u :
  u <> Nil -> NilZero.string_of_uint u = NilEmpty.string_of_uint u.
Proof. destruct u; auto. congruence. Qed.

Lemma number_literal_show_Z z rest :
  delimited rest = true ->
  number_literal (show_Z z ++ rest) = Some (VNum (Int z), rest).
Proof.
  intros Hd. destruct z as [|p|p].
  - unfold number_literal, unsigned_literal. simpl.
    rewrite digits_delimited, delimited_not_fraction by exact Hd. reflexivity.
  - change (show_Z (Z.pos p) ++ rest)
      with (NilZero.string_of_uint (Pos.to_uint p) ++ rest).
    rewrite string_of_uint_nonnil
      by apply DecimalPos.Unsigned.to_uint_nonnil.
    unfold number_literal.
    rewrite unsigned_literal_to_uint by exact Hd.
    replace (Z.of_int (Pos (Pos.to_uint p))) with (Z.pos p)
      by (symmetry; apply (DecimalZ.of_to (Z.pos p))).
    destruct (NilEmpty.string_of_uint (Pos.to_uint p) ++ rest) as [|c s] eqn:E;
      [reflexivity|].
    destruct (Ascii.eqb_spec c "-");
      [|now destruct c as [[] [] [] [] [] [] [] []]].
    subst c. exfalso.
    destruct (Pos.to_uint p); simpl in E; try discriminate.
    apply (f_equal delimited) in E. simpl in E. rewrite Hd in E. discriminate.
  - change (show_Z (Z.neg p) ++ rest)
      with (String "-" (NilZero.string_of_uint (Pos.to_uint p) ++ rest)).
    rewrite string_of_uint_nonnil
      by apply DecimalPos.Unsigned.to_uint_nonnil.
    cbv beta iota delta [number_literal].
    rewrite unsigned_literal_to_uint by exact Hd.
    do 4 f_equal. apply (DecimalZ.of_to (Z.neg p)).
Qed.

(** *** Values *)

Lemma parse_value_string f X :
  parse_value (S f) (String dquote X) =
  match string_body X with
  | Some (str, r) => Some (VStr str, r)
  | None => None
  end.
Proof. reflexivity. Qed.


Lemma parse_value_number f c s :
  is_num_head c = true ->
  parse_value (S f) (String c s) = number_literal (String c s).
Proof.
  destruct c as [[] [] [] [] [] [] [] []]; intros H;
    try discriminate H; reflexivity.
Qed.

Lemma parse_value_object_empty f r :
  parse_value (S f) (String "{" (String "}" r)) = Some (VObj [], r).
Proof. reflexivity. Qed.

Lemma parse_value_object f X :
  parse_value (S f) (String "{" (String dquote X)) =
  parse_members f (String dquote X) [].
Proof. reflexivity. Qed.

Lemma parse_members_step f X acc :
  parse_members (S f) (String dquote X) acc =
  match string_body X with
  | Some (k, s2) =>
      match skip_ws s2 with
      | String ":" s3 =>
          match parse_value f s3 with
          | Some (v, s4) =>
              match skip_ws s4 with
              | String "," s5 => parse_members f s5 (set k v acc)
              | String "}" s5 => Some (VObj (set k v acc), s5)
              | _ => None
              end
          | None => None
          end
      | _ => None
      end
  | None => None
  end.
Proof. reflexivity. Qed.

Lemma quote_append k X :
  quote k ++ X = String dquote (escape_all k ++ String dquote X).
Proof. unfold quote. simpl. now rewrite append_assoc. Qed.

Lemma show_Z_head z :
  exists c s, show_Z z = String c s /\ is_num_head c = true.
Proof.
  destruct z as [|p|p].
  - now exists "0"%char, "".
  - change (show_Z (Z.pos p)) with (NilZero.string_of_uint (Pos.to_uint p)).
    pose proof (DecimalPos.Unsigned.to_uint_nonnil p) as Hn.
    destruct (Pos.to_uint p); try congruence; simpl; eauto.
  - change (show_Z (Z.neg p))
      with (String "-" (NilZero.string_of_uint (Pos.to_uint p))).
    eauto.
Qed.

Lemma members_cons k v fs sep :
  v <> VUndefined ->
  members ((k, v) :: fs) sep =
  sep ++ quote k ++ ":" ++ stringify v ++ members fs ",".
Proof. destruct v; simpl; congruence. Qed.

Lemma json_value_defined v : json_value v = true -> v <> VUndefined.
Proof. now destruct v. Qed.

Lemma set_fresh k v acc fs :
  distinct_keys (acc ++ (k, v) :: fs)%list = true ->
  set k v acc = (acc ++ [(k, v)])%list.
Proof.
  induction acc as [|[k0 v0] acc IH]; simpl; auto.
  intros H. apply andb_true_iff in H. destruct H as [Hk Hd].
  apply negb_true_iff in Hk. unfold has_key in Hk.
  rewrite existsb_app in Hk. apply orb_false_iff in Hk.
  destruct Hk as [_ Hk]. simpl in Hk. apply orb_false_iff in Hk.
  destruct Hk as [Hk _]. rewrite String.eqb_sym, Hk.
  now rewrite IH.
Qed.

Lemma skip_ws_head c x : is_ws c = false -> skip_ws (String c x) = String c x.
Proof. simpl. now intros ->. Qed.

(** The text that follows a property inside an object is delimited. *)
Lemma members_tail_delimited fs rest :
  forallb (fun kv => json_value (snd kv)) fs = true ->
  delimited (members fs "," ++ String "}" rest) = true.
Proof.
  destruct fs as [|[k v] fs]; simpl; auto.
  intros H. apply andb_true_iff in H. destruct H as [Hv _].
  now destruct v.
Qed.

(** Reading back the properties of an object, given that each of their
    values reads back. *)
Lemma parse_members_members fs :
  Forall (fun kv =>
            json_value (snd kv) = true ->
            forall rest fuel,
              delimited rest = true -> (fuel_for (snd kv) <= fuel)%nat ->
              parse_value fuel (stringify (snd kv) ++ rest) =
              Some (snd kv, rest)) fs ->
  forallb (fun kv => json_value (snd kv)) fs = true ->
  forall acc fuel rest,
    distinct_keys (acc ++ fs)%list = true ->
    (fuel_fields fs <= fuel)%nat ->
    match skip_ws (members fs "," ++ String "}" rest) with
    | String "," s5 => parse_members fuel s5 acc
    | String "}" s5 => Some (VObj acc, s5)
    | _ => None
    end = Some (VObj (acc ++ fs)%list, rest).
Proof.
  induction 1 as [|[k v] fs Hv Hfs IH]; intros Hj acc fuel rest Hd Hf.
  - simpl. now rewrite app_nil_r.
  - simpl in Hj. apply andb_true_iff in Hj. destruct Hj as [Hjv Hjfs].
    simpl in Hv, Hf.
    rewrite members_cons by now apply json_value_defined.
    destruct fuel as [|fuel]; [lia|].
    rewrite !append_assoc. cbn [append].
    rewrite skip_ws_head by reflexivity. cbv beta iota.
    rewrite quote_append, parse_members_step, string_body_escape_all.
    rewrite skip_ws_head by reflexivity. cbv beta iota.
    rewrite (Hv Hjv (members fs "," ++ String "}" rest) fuel)
      by (try apply members_tail_delimited; auto; lia).
    rewrite (set_fresh k v acc fs Hd).
    rewrite (IH Hjfs (acc ++ [(k, v)])%list fuel rest).
    + now rewrite <- app_assoc.
    + now rewrite <- app_assoc.
    + lia.
Qed.

(** [parse_value] reads back what [stringify] wrote, before any delimited
    text. *)
Lemma parse_value_stringify v :
  json_value v = true ->
  forall rest fuel,
    delimited rest = true -> (fuel_for v <= fuel)%nat ->
    parse_value fuel (stringify v ++ rest) = Some (v, rest).
Proof.
  induction v as [| |b|n|s|fs IH] using value_ind'; intros Hj rest fuel Hd Hf;
    (destruct fuel as [|fuel]; [simpl in Hf; lia|]).
  - discriminate.
  - reflexivity.
  - now destruct b.
  - destruct n as [|z]; [discriminate|].
    destruct (show_Z_head z) as [c [s [Hz Hc]]].
    change (stringify (VNum (Int z))) with (show_Z z).
    pose proof (number_literal_show_Z z rest Hd) as Hnum.
    rewrite Hz in *. cbn [append] in *.
    now rewrite parse_value_number.
  - change (stringify (VStr s)) with (quote s).
    rewrite quote_append, parse_value_string, string_body_escape_all.
    reflexivity.
  - rewrite stringify_obj, fuel_for_obj in *.
    simpl in Hj. apply andb_true_iff in Hj. destruct Hj as [Hk Hv].
    rewrite !append_assoc. cbn [append].
    destruct fs as [|[k v] fs].
    + apply parse_value_object_empty.
    + rewrite members_cons
        by (apply json_value_defined; simpl in Hv;
            now apply andb_true_iff in Hv).
      repeat first [rewrite append_assoc | progress cbn [append]].
      rewrite quote_append, parse_value_object.
      pose proof (parse_members_members ((k, v) :: fs) IH Hv [] fuel rest Hk)
        as Hm.
      rewrite members_cons in Hm
        by (apply json_value_defined; simpl in Hv;
            now apply andb_true_iff in Hv).
      rewrite !append_assoc in Hm. cbn [append] in Hm.
      rewrite skip_ws_head in Hm by reflexivity. cbv beta iota in Hm.
      rewrite quote_append in Hm.
      apply Hm. simpl in Hf |- *. lia.
Qed.

Lemma append_nil_r (s : string) : s ++ "" = s.
Proof. induction s; simpl; congruence. Qed.

Lemma show_Z_length z : (1 <= String.length (show_Z z))%nat.
Proof.
  destruct (show_Z_head z) as [c [s [-> _]]]. simpl. lia.
Qed.

Lemma fuel_for_bound v :
  json_value v = true -> (fuel_for v <= String.length (stringify v))%nat.
Proof.
  induction v as [| |b|n|s|fs IH] using value_ind'; intros Hj.
  - discriminate.
  - simpl. lia.
  - destruct b; simpl; lia.
  - destruct n as [|z]; [discriminate|]. apply show_Z_length.
  - simpl. lia.
  - rewrite stringify_obj, fuel_for_obj.
    simpl in Hj. apply andb_true_iff in Hj. destruct Hj as [_ Hv].
    assert (forall sep, (fuel_fields fs <= String.length (members fs sep))%nat)
      as Hm.
    { induction IH as [|[k v] fs Hkv Hfs IHfs]; intros sep; [simpl; lia|].
      simpl in Hv. apply andb_true_iff in Hv. destruct Hv as [Hv1 Hv2].
      rewrite members_cons by now apply json_value_defined.
      rewrite !length_append. unfold quote.
      specialize (Hkv Hv1). specialize (IHfs Hv2 ","). simpl in Hkv.
      simpl. rewrite length_append. simpl. lia. }
    specialize (Hm ""). simpl. rewrite length_append. simpl. lia.
Qed.

(** The round trip of the reference codec: reading back the text written
    for a JSON value gives the value. *)
Lemma parse_stringify v : json_value v = true -> parse (stringify v) = inr v.
Proof.
  intros Hj. unfold parse.
  pose proof (parse_value_stringify v Hj "" (S (String.length (stringify v)))
                eq_refl) as H.
  rewrite append_nil_r in H. rewrite H.
  - reflexivity.
  - pose proof (fuel_for_bound v Hj). lia.
Qed.

(** Properties whose value is [undefined] leave no trace in the text. *)
Lemma stringify_prune v : stringify (prune v) = stringify v.
Proof.
  induction v as [| |b|n|s|fs IH] using value_ind'; try reflexivity.
  rewrite prune_obj, !stringify_obj. do 2 f_equal.
  generalize "" as sep.
  induction IH as [|[k v] fs Hkv Hfs IHfs]; intros sep; simpl; auto.
  simpl in Hkv.
  destruct v; try (simpl; rewrite IHfs; reflexivity); try apply IHfs.
  change (members ((k, prune (VObj fields)) :: prune_fields fs) sep =
          members ((k, VObj fields) :: fs) sep).
  rewrite !members_cons by (rewrite ?prune_obj; discriminate).
  rewrite Hkv, IHfs. reflexivity.
Qed.

Lemma parse_stringify_prune v :
  json_value (prune v) = true -> parse (stringify v) = inr (prune v).
Proof.
  intros Hj. rewrite <- stringify_prune. now apply parse_stringify.
Qed.

Lemma prune_json_value v : json_value v = true -> prune v = v.
Proof.
  induction v as [| |b|n|s|fs IH] using value_ind'; try reflexivity.
  intros Hj. rewrite prune_obj. f_equal.
  simpl in Hj. apply andb_true_iff in Hj. destruct Hj as [_ Hv].
  induction IH as [|[k v] fs Hkv Hfs IHfs]; auto.
  simpl in Hv, Hkv. apply andb_true_iff in Hv. destruct Hv as [Hv1 Hv2].
  specialize (IHfs Hv2). specialize (Hkv Hv1).
  destruct v; try discriminate; simpl; try (now rewrite IHfs).
  change (prune_fields ((k, VObj fields) :: fs) = (k, VObj fields) :: fs).
  change (prune_fields ((k, VObj fields) :: fs))
    with ((k, prune (VObj fields)) :: prune_fields fs).
  now rewrite Hkv, IHfs.
Qed.

(* ===================================================================== *)
(** ** The round trip of a persisted session *)
(* ===================================================================== *)

Lemma get_no_key k o : has_key k o = false -> get k o = VUndefined.
Proof.
  induction o as [|[k' v] o IH]; simpl; auto.
  intros H. apply orb_false_iff in H. destruct H as [-> H]. auto.
Qed.

Lemma has_key_prune_fields k fs :
  has_key k fs = false -> has_key k (prune_fields fs) = false.
Proof.
  induction fs as [|[k' v] fs IH]; simpl; auto.
  intros H. apply orb_false_iff in H. destruct H as [H1 H2].
  destruct v; simpl; rewrite ?H1; auto.
Qed.

(** Under every property name, the kept properties read as the original
    ones do. *)
Lemma get_prune_fields k fs :
  distinct_keys fs = true -> get k (prune_fields fs) = prune (get k fs).
Proof.
  induction fs as [|[k' v] fs IH]; [reflexivity|].
  intros Hd. simpl in Hd. apply andb_true_iff in Hd. destruct Hd as [Hk Hd].
  apply negb_true_iff in Hk. specialize (IH Hd).
  simpl get. destruct (k =? k')%string eqn:E.
  - apply String.eqb_eq in E. subst k'.
    destruct v; simpl; rewrite ?String.eqb_refl; try reflexivity.
    apply get_no_key. now apply has_key_prune_fields.
  - destruct v; simpl; rewrite ?E; exact IH.
Qed.


(** Restarting over the entry that [login] wrote for an object (one whose
    kept properties are JSON values, with a numeric expiry that is still
    ahead) restores the object without its [undefined]-valued
    properties. *)
Lemma remount_restores_pruned now fs e :
  json_value (prune (VObj fs)) = true ->
  get "expiresAt" fs = VNum (Int e) ->
  now < e ->
  exists st,
    mount parse string_to_number now (Some (stringify (VObj fs))) = inr st /\
    user st = prune (VObj fs) /\
    storage st = Some (stringify (VObj fs)) /\
    ready st = true /\ disarmed st.
Proof.
  intros Hj He Hlt.
  assert (stringify (VObj fs) <> "") as Hne
    by (rewrite stringify_obj; discriminate).
  assert (expired string_to_number now (prune (VObj fs)) = false) as Hex.
  { unfold expired. rewrite prune_obj. cbn [opt_get].
    assert (get "expiresAt" (prune_fields fs) = VNum (Int e)) as ->.
    { clear Hj Hne. induction fs as [|[k v] fs IH]; [discriminate|].
      cbn [get] in He. destruct ("expiresAt" =? k)%string eqn:E.
      - rewrite He. cbn [get prune_fields prune]. now rewrite E.
      - specialize (IH He).
        destruct v; cbn [get prune_fields]; rewrite ?E; exact IH. }
    simpl. destruct (Z.leb_spec e now); [lia|]. apply andb_false_r. }
  eexists. split.
  { unfold mount.
    rewrite (hydrate_parsed parse string_to_number now
               (initial (Some (stringify (VObj fs)))) (stringify (VObj fs))
               (prune (VObj fs)) eq_refl Hne (parse_stringify_prune _ Hj)).
    rewrite Hex. reflexivity. }
  simpl. repeat split.
Qed.

(** A session that [login] has made active and persisted survives a
    restart before its expiry, up to its [undefined]-valued properties. *)
Lemma login_then_restart now p e st t :
  truthy (expiresAt p) = true ->
  ToNumber string_to_number (expiresAt p) = Int e ->
  get "expiresAt" (toStore p) = VNum (Int e) ->
  json_value (prune (VObj (toStore p))) = true ->
  now < e -> t < e ->
  let st1 := login_commit stringify string_to_number now p st in
  exists st2,
    mount parse string_to_number t (storage st1) = inr st2 /\
    user st2 = prune (user st1) /\
    storage st2 = storage st1.
Proof.
  intros Ht Hn He Hj Hlt Hlt'. cbv zeta.
  destruct (login_commit_future stringify string_to_number now p e st
              Ht Hn Hlt) as [Hu [Hs _]].
  rewrite Hu, Hs.
  destruct (remount_restores_pruned t (toStore p) e Hj He Hlt')
    as [st2 [Hm [Hu2 [Hs2 _]]]].
  exists st2. auto.
Qed.

(** Writing to a property the value it already has changes nothing. *)
Lemma set_get_id k v o : get k o = v -> v <> VUndefined -> set k v o = o.
Proof.
  intros Hg Hv. induction o as [|[k0 v0] o IH]; cbn [get set] in *.
  - congruence.
  - destruct (k =? k0)%string; [now subst | now rewrite IH].
Qed.

(** C5.  Every session that a [login] call makes active before its
    [expiresAt] (an instant no further than [max_delay] from the call) is
    persisted as its serialization, and mounting again before [expiresAt]
    restores it without its [undefined]-valued properties (the ones
    [JSON.stringify] leaves out), keeping the entry; the restored session
    is equal to the one persisted when that one has no such property.  A
    session given to [login] with its [expiresAt] and a role is persisted
    as it is. *)
Theorem C5_persist_then_hydrate_round_trip
        now now' userData get_me st e t :
  0 <= now -> now <= now' -> now' <= t -> t < e -> e - now <= max_delay ->
  expiresAt (login_prepare now userData) = VNum (Int e) ->
  exists st1 s,
    login stringify string_to_number now now' userData get_me st = inr st1 /\
    user st1 = VObj s /\
    storage st1 = Some (stringify (VObj s)) /\
    get "expiresAt" s = VNum (Int e) /\
    (forall fs, userData = VObj fs ->
       get "expiresAt" fs = VNum (Int e) ->
       truthy (get "role" fs) = true -> s = fs) /\
    (json_value (prune (VObj s)) = true ->
     exists st2,
       mount parse string_to_number t (storage st1) = inr st2 /\
       user st2 = prune (VObj s) /\
       authenticated st2 = true /\
       storage st2 = storage st1 /\
       ready st2 = true /\
       (json_value (VObj s) = true -> user st2 = VObj s)).
Proof.
  intros Hnow Hle Hle' Hlt' _ He.
  assert (now' < e) as Hlt by lia.
  pose proof (login_prepare_expiresAt now userData) as Hpe.
  rewrite He in Hpe.
  assert (truthy (VNum (Int e)) = true) as Ht
    by (cbn [truthy]; apply negb_true_iff, Z.eqb_neq; lia).
  assert (forall c o,
            c < e -> get "expiresAt" o = VNum (Int e) ->
            let st1 := login_commit stringify string_to_number c
                         (mkPending o (VNum (Int e))) st in
            user st1 = VObj o /\
            storage st1 = Some (stringify (VObj o)) /\
            (json_value (prune (VObj o)) = true ->
             exists st2,
               mount parse string_to_number t (storage st1) = inr st2 /\
               user st2 = prune (VObj o) /\
               authenticated st2 = true /\
               storage st2 = storage st1 /\
               ready st2 = true /\
               (json_value (VObj o) = true -> user st2 = VObj o))) as Hcommit.
  { intros c o Hc Ho. cbv zeta.
    destruct (login_commit_future stringify string_to_number c
                (mkPending o (VNum (Int e))) e st Ht eq_refl Hc)
      as [Hu [Hs _]].
    cbn [toStore] in Hu, Hs. rewrite Hu, Hs.
    split; [reflexivity|]. split; [reflexivity|].
    intros Hj.
    destruct (remount_restores_pruned t o e Hj Ho Hlt')
      as [st2 [Hm [Hu2 [Hs2 [Hr2 _]]]]].
    exists st2. split; [exact Hm|]. split; [exact Hu2|].
    split; [unfold authenticated; now rewrite Hu2, prune_obj|].
    split; [exact Hs2|]. split; [exact Hr2|].
    intros Hj'. now rewrite Hu2, prune_json_value. }
  unfold login.
  destruct (wants_role (login_prepare now userData)) eqn:Hw.
  - rewrite login_resume_commit, He.
    assert (get "expiresAt" (enriched (login_prepare now userData) get_me) =
            VNum (Int e)) as Hge
      by (now rewrite enriched_get by discriminate).
    destruct (Hcommit now' _ Hlt Hge) as [Hu [Hs Hrt]].
    eexists. exists (enriched (login_prepare now userData) get_me).
    split; [reflexivity|]. split; [exact Hu|]. split; [exact Hs|].
    split; [exact Hge|]. split; [|exact Hrt].
    intros fs -> Hfs Hrole. exfalso.
    unfold wants_role, login_prepare in Hw. cbn [toStore spread] in Hw.
    rewrite get_set_other, Hrole in Hw by discriminate. discriminate.
  - assert (now < e) as Hlt0 by lia.
    assert (login_prepare now userData =
            mkPending (toStore (login_prepare now userData)) (VNum (Int e)))
      as Hp by (rewrite <- He; now destruct (login_prepare now userData)).
    destruct (Hcommit now _ Hlt0 Hpe) as [Hu [Hs Hrt]].
    rewrite <- Hp in Hu, Hs, Hrt.
    eexists. exists (toStore (login_prepare now userData)).
    split; [reflexivity|]. split; [exact Hu|]. split; [exact Hs|].
    split; [exact Hpe|]. split; [|exact Hrt].
    intros fs -> Hfs _. unfold login_prepare in *. cbn [toStore spread expiresAt] in *.
    rewrite He. apply set_get_id; [exact Hfs | discriminate].
Qed.

(* ===================================================================== *)
(** ** Concrete runs *)
(* ===================================================================== *)


(** The scenario of the specification for an expired record. *)
Example hydrate_expired_scenario :
  mount parse string_to_number 1000 (Some stored_expired) =
  inr (mkState None VNull true None [] 1%nat VUndefined).
Proof. reflexivity. Qed.

(** Signing in through the form: the session holds the normalized user
    and the token, is persisted without its [undefined]-valued properties,
    and no profile request is made. *)
Example handleSubmit_signs_in :
  let w := handleSubmit stringify string_to_number 1000 login_response
             fresh_world in
  user (app w) =
    VObj [("id", VStr "u7"); ("username", VStr "bob"); ("email", VUndefined);
          ("role", VStr "user"); ("createdAt", VUndefined);
          ("updatedAt", VUndefined); ("token", VStr "jwt");
          ("expiresAt", VNum (Int 3601000))] /\
  storage (app w) = Some stored_signed_in /\
  inflight w = [] /\
  timers (app w) = [(1%nat, 3601000)].
Proof. repeat split. Qed.

Example loginUser_missing_token :
  loginUser (inr (VObj [("user", VObj raw_user)])) = inl malformed_login.
Proof. reflexivity. Qed.

Example loginUser_missing_user :
  loginUser (inr (VObj [("token", VStr "jwt")])) = inl malformed_login.
Proof. reflexivity. Qed.

Example loginUser_rejected e : loginUser (inl e) = inl e.
Proof. reflexivity. Qed.

(** A partial record is restored: one without [expiresAt], and one
    without [token]. *)
Lemma C1_partial_record_is_restored :
  (exists st,
      mount parse string_to_number 1000 (Some stored_no_expiry) = inr st /\
      authenticated st = true /\
      user st = VObj [("token", VStr "t1")] /\
      opt_get (user st) "expiresAt" = VUndefined) /\
  (exists st,
      mount parse string_to_number 1000 (Some stored_no_token) = inr st /\
      authenticated st = true /\
      opt_get (user st) "token" = VUndefined).
Proof.
  split; eexists; (split; [reflexivity|]); repeat split.
Qed.

(** C1 on a live record: [{token:t1,expiresAt:5000}] at clock
    reading 1000. *)
Lemma C1_witness :
  mount parse string_to_number 1000 (Some stored_live) =
    inr (mounted 1000 (Some stored_live)) /\
  authenticated (mounted 1000 (Some stored_live)) = true /\
  exists raw,
    Some stored_live = Some raw /\ raw <> "" /\
    parse raw = inr (user (mounted 1000 (Some stored_live))) /\
    expired string_to_number 1000 (user (mounted 1000 (Some stored_live))) =
      false /\
    storage (mounted 1000 (Some stored_live)) = Some stored_live.
Proof.
  split; [reflexivity|]. split; [reflexivity|].
  apply (C1_restored_record_is_parsed_and_unexpired
           parse string_to_number 1000 (Some stored_live)
           (mounted 1000 (Some stored_live))); reflexivity.
Defined.

(** A logout between the call and the settlement of its profile request
    does not stop the call from logging the user in. *)
Lemma C2_logout_does_not_discard_pending_login :
  authenticated (app (go [Login 1000 token_only; Logout])) = false /\
  authenticated
    (app (go [Login 1000 token_only; Logout; Settle 2000 0 profile])) = true /\
  storage (app (go [Login 1000 token_only; Logout; Settle 2000 0 profile])) =
    Some (q "{'token':'t1','expiresAt':3601000,'role':'admin','id':7}") /\
  timers (app (go [Login 1000 token_only; Logout; Settle 2000 0 profile])) =
    [(1%nat, 3601000)].
Proof. repeat split. Qed.

(** C2 on the run above: the login called at 1000 settles at 2000, after
    the logout. *)
Lemma C2_witness :
  nth_error (inflight (go [Login 1000 token_only])) 0 =
    Some (login_prepare 1000 token_only) /\
  2000 < 3601000 /\
  let w1 := go [Login 1000 token_only; Logout] in
  let w2 := go [Login 1000 token_only; Logout; Settle 2000 0 profile] in
  authenticated (app w1) = false /\ storage (app w1) = None /\
  user (app w2) = VObj (enriched (login_prepare 1000 token_only) profile) /\
  storage (app w2) =
    Some (stringify
            (VObj (enriched (login_prepare 1000 token_only) profile))) /\
  authenticated (app w2) = true /\
  (single_timer (app (go [Login 1000 token_only])) -> armed 3601000 (app w2)).
Proof.
  split; [reflexivity|]. split; [reflexivity|].
  apply (C2_settled_login_is_applied_after_logout
           stringify string_to_number (go [Login 1000 token_only]) 0%nat
           (login_prepare 1000 token_only) profile 2000 3601000);
    reflexivity.
Defined.

(** The expiry computed at clock reading 1000 is 3601000, and the timeout
    fires then, before 4601000. *)
Lemma C3_default_expiry_is_3601000 :
  computeExpiry 1000 None = 3601000 /\
  opt_get
    (user (app (go [Login 1000 token_only;
                    Settle 1000 0 (inl network_error)]))) "expiresAt" =
    VNum (Int 3601000) /\
  timers (app (go [Login 1000 token_only;
                   Settle 1000 0 (inl network_error)])) =
    [(1%nat, 3601000)] /\
  authenticated
    (app (go [Login 1000 token_only; Settle 1000 0 (inl network_error);
              Fire 3601000 1])) = false /\
  (3601000 <? 4601000) = true.
Proof. repeat split. Qed.

(** C3 from a freshly mounted component, the profile request settling at
    1500 and two renders following. *)
Lemma C3_witness :
  single_timer (app fresh_world) /\
  1500 < 3601000 /\
  Forall (fun r => r < 3601000) [1600; 2000] /\
  let w3 :=
    go [Login 1000 token_only; Settle 1500 0 profile; Render 1600;
        Render 2000] in
  opt_get (user (app w3)) "expiresAt" = VNum (Int 3601000) /\
  opt_get (user (app w3)) "token" = VStr "t1" /\
  authenticated (app w3) = true /\
  storage (app w3) = Some (stringify (user (app w3))) /\
  exists h,
    timers (app w3) = [(h, 3601000)] /\
    logoutTimerRef (app w3) = Some h /\
    (forall now, now < 3601000 ->
       step stringify string_to_number (Fire now h) w3 = w3) /\
    let w4 := step stringify string_to_number (Fire 3601000 h) w3 in
    authenticated (app w4) = false /\ user (app w4) = VNull /\
    storage (app w4) = None /\ disarmed (app w4).
Proof.
  assert (single_timer (app fresh_world)) as Hs
    by (apply disarmed_single; split; reflexivity).
  assert (Forall (fun r => r < 3601000) [1600; 2000]) as Hr
    by (repeat constructor).
  split; [exact Hs|]. split; [reflexivity|]. split; [exact Hr|].
  exact (C3_login_default_expiry_and_timer
           stringify string_to_number fresh_world profile 1500 [1600; 2000]
           Hs eq_refl Hr).
Defined.

(** A persisted record whose [expiresAt] is 0 is restored, although 0 is
    not after the clock reading 1000. *)
Lemma C4_zero_expiry_is_restored :
  parse stored_zero =
    inr (VObj [("token", VStr "t2"); ("expiresAt", VNum (Int 0))]) /\
  (0 <=? 1000) = true /\
  exists st,
    mount parse string_to_number 1000 (Some stored_zero) = inr st /\
    authenticated st = true /\
    storage st = Some stored_zero /\
    authenticated (render string_to_number 1000 st) = true.
Proof.
  split; [reflexivity|]. split; [reflexivity|].
  eexists. split; [reflexivity|]. repeat split.
Qed.

(** C4 on the record [{token:t2,expiresAt:500}] at clock reading
    1000. *)
Lemma C4_witness :
  stored_expired <> "" /\
  parse stored_expired =
    inr (VObj [("token", VStr "t2"); ("expiresAt", VNum (Int 500))]) /\
  500 <> 0 /\ 500 <= 1000 /\
  exists st,
    mount parse string_to_number 1000 (Some stored_expired) = inr st /\
    authenticated st = false /\ user st = VNull /\ storage st = None /\
    disarmed st /\
    forall t, disarmed (render string_to_number t st) /\
              user (render string_to_number t st) = VNull.
Proof.
  assert (stored_expired <> "") as H1 by discriminate.
  assert (500 <> 0) as H2 by discriminate.
  assert (500 <= 1000) as H3 by discriminate.
  split; [exact H1|]. split; [reflexivity|].
  split; [exact H2|]. split; [exact H3|].
  exact (C4_expired_record_is_discarded
           parse string_to_number 1000 stored_expired
           (VObj [("token", VStr "t2"); ("expiresAt", VNum (Int 500))]) 500
           H1 eq_refl eq_refl H2 H3).
Defined.

(** A valid session that [login] persisted and that a restart does not
    restore as it was: the one the login form builds, whose [email],
    [createdAt] and [updatedAt] are [undefined]. *)
Lemma C5_undefined_properties_are_not_restored :
  let w := handleSubmit stringify string_to_number 1000 login_response
             fresh_world in
  let s := user (app w) in
  let restarted := mounted 2000 (storage (app w)) in
  valid_session s = true /\
  opt_get s "expiresAt" = VNum (Int 3601000) /\
  storage (app w) = Some (stringify s) /\
  mount parse string_to_number 2000 (storage (app w)) = inr restarted /\
  authenticated restarted = true /\
  same_value (user restarted) s = false /\
  user restarted = prune s /\
  same_value (opt_get s "email") (opt_get (user restarted) "email") = true /\
  json_value s = false.
Proof. cbv zeta. repeat split; vm_compute; reflexivity. Qed.

(** C5 for a session given to [login] with its role and [expiresAt]. *)
Lemma C5_witness :
  0 <= 1000 /\ 1000 <= 2000 /\ 2000 < 5000 /\ 5000 - 1000 <= max_delay /\
  expiresAt (login_prepare 1000 session_live) = VNum (Int 5000) /\
  exists st1 st2,
    login stringify string_to_number 1000 1000 session_live profile
      (initial None) = inr st1 /\
    user st1 = session_live /\
    storage st1 = Some (stringify session_live) /\
    mount parse string_to_number 2000 (storage st1) = inr st2 /\
    user st2 = session_live /\
    authenticated st2 = true /\
    storage st2 = storage st1.
Proof.
  split; [lia|]. split; [lia|]. split; [lia|].
  split; [unfold max_delay; lia|]. split; [reflexivity|].
  destruct (C5_persist_then_hydrate_round_trip
              1000 1000 session_live profile (initial None) 5000 2000)
    as [st1 [s [Hl [Hu [Hs [_ [Hsame Hrt]]]]]]];
    [lia | lia | lia | lia | unfold max_delay; lia | reflexivity |].
  assert (s = [("token", VStr "t1"); ("role", VStr "admin");
               ("expiresAt", VNum (Int 5000))]) as ->
    by (apply Hsame; reflexivity).
  destruct (Hrt eq_refl) as [st2 [Hm [Hu2 [Ha [Hs2 [_ Heq]]]]]].
  exists st1, st2.
  split; [exact Hl|]. split; [exact Hu|]. split; [exact Hs|].
  split; [exact Hm|]. split; [exact (Heq eq_refl)|].
  split; [exact Ha | exact Hs2].
Defined.

(** Two persisted values that are not session data and are not cleared:
    the empty string is left in the store, and an object that parses is
    restored as the active session. *)
Lemma C6_empty_or_foreign_value_is_kept :
  (parse "" = inl (SyntaxError "Unexpected token in JSON") /\
   exists st,
     mount parse string_to_number 1000 (Some "") = inr st /\
     authenticated st = false /\
     storage st = Some "") /\
  (valid_session (VObj []) = false /\
   exists st,
     mount parse string_to_number 1000 (Some "{}") = inr st /\
     authenticated st = true /\
     storage st = Some "{}").
Proof.
  split; (split; [reflexivity|]); eexists; (split; [reflexivity|]);
    repeat split.
Qed.

(** C6 on a truncated record. *)
Lemma C6_witness :
  stored_truncated <> "" /\
  parse stored_truncated = inl (SyntaxError "Unexpected token in JSON") /\
  exists st,
    mount parse string_to_number 1000 (Some stored_truncated) = inr st /\
    authenticated st = false /\ user st = VNull /\ storage st = None /\
    disarmed st /\ ready st = true.
Proof.
  assert (stored_truncated <> "") as H1 by discriminate.
  split; [exact H1|]. split; [reflexivity|].
  exact (C6_unparsable_record_is_cleared
           parse string_to_number 1000 stored_truncated
           (SyntaxError "Unexpected token in JSON") H1 eq_refl).
Defined.



(** C9 for the token [t1], the call made at 1000 and the request
    rejected at 1200. *)
Lemma C9_witness :
  "t1" <> "" /\ 0 <= 1000 /\ 1200 < 1000 + 3600000 /\
  let w2 := go [Login 1000 token_only; Settle 1200 0 (inl network_error)] in
  app (go [Login 1000 token_only]) = app fresh_world /\
  login stringify string_to_number 1000 1200 token_only (inl network_error)
    (app fresh_world) = inr (app w2) /\
  authenticated (app w2) = true /\
  user (app w2) =
    VObj [("token", VStr "t1"); ("expiresAt", VNum (Int (1000 + 3600000)))] /\
  opt_get (user (app w2)) "token" = VStr "t1" /\
  opt_get (user (app w2)) "role" = VUndefined /\
  storage (app w2) =
    Some (stringify
            (VObj [("token", VStr "t1");
                   ("expiresAt", VNum (Int (1000 + 3600000)))])) /\
  (single_timer (app fresh_world) -> armed (1000 + 3600000) (app w2)).
Proof.
  assert ("t1" <> "") as H1 by discriminate.
  assert (0 <= 1000) as H2 by discriminate.
  split; [exact H1|]. split; [exact H2|]. split; [reflexivity|].
  exact (C9_enrichment_failure_is_swallowed
           stringify string_to_number fresh_world "t1" 1000 1200
           network_error H1 H2 eq_refl).
Defined.

(** C10 on a raw user with an empty role and only [_id]. *)
Lemma C10_witness :
  exists n,
    normalizeUser (VObj raw_user) = VObj n /\
    get "role" n = VStr "user" /\
    get "id" n = VStr "u7" /\
    loginUser (inr (VObj [("user", VObj raw_user); ("token", VStr "jwt")])) =
      inr (VObj [("user", VObj n); ("token", VStr "jwt")]) /\
    fetchCurrentUser (VStr "jwt") (inr (VObj raw_user)) = inr (VObj n).
Proof.
  destruct (C10_normalized_user_has_role raw_user)
    as [n [Hn [_ [Hrole [Hid [Hlogin Hfetch]]]]]].
  exists n. split; [exact Hn|]. split; [exact Hrole|]. split; [exact Hid|].
  split.
  - apply (Hlogin (VObj [("user", VObj raw_user); ("token", VStr "jwt")]));
      reflexivity.
  - apply (Hfetch (VStr "jwt") (VObj raw_user)); reflexivity.
Defined.

(* ===================================================================== *)
(** ** Further properties of the session manager *)
(* ===================================================================== *)

Lemma logout_ref st : logoutTimerRef (logout st) = None.
Proof. unfold logout. apply clearLogoutTimer_ref. Qed.

(** X1.  [logout] always ends unauthenticated with the persisted entry
    removed and the ref empty, whatever the state it is called in; calling
    it again changes nothing; and when only the ref's timeout was pending,
    none is pending afterwards. *)
Theorem X1_logout_is_idempotent (st : state) :
  user (logout st) = VNull /\
  storage (logout st) = None /\
  logoutTimerRef (logout st) = None /\
  logout (logout st) = logout st /\
  (single_timer st -> timers (logout st) = []).
Proof.
  split; [apply logout_user|]. split; [apply logout_storage|].
  split; [apply logout_ref|]. split.
  - pose proof (logout_user st) as Hu. pose proof (logout_storage st) as Hs.
    pose proof (logout_ref st) as Hr.
    destruct (logout st) as [s u r ref ts nh d]. simpl in *. subst.
    reflexivity.
  - intros H. now destruct (logout_disarmed st H).
Qed.

(** X1 on a signed-in state. *)
Lemma X1_witness :
  single_timer (app (go [Login 1000 second_login])) /\
  authenticated (app (go [Login 1000 second_login])) = true /\
  timers (logout (app (go [Login 1000 second_login]))) = [] /\
  logout (logout (app (go [Login 1000 second_login]))) =
    logout (app (go [Login 1000 second_login])).
Proof.
  assert (single_timer (app (go [Login 1000 second_login]))) as Hs.
  { apply (armed_single 9000). exists 1%nat. split; reflexivity. }
  split; [exact Hs|]. split; [reflexivity|].
  destruct (X1_logout_is_idempotent (app (go [Login 1000 second_login])))
    as [_ [_ [_ [Hi Ht]]]].
  split; [exact (Ht Hs) | exact Hi].
Defined.

Section SessionInvariants.

Variable JSON_parse : string -> js value.
Variable JSON_stringify : value -> string.
Variable StringToNumber : string -> number.

Local Abbreviation scheduleAutoLogout := (scheduleAutoLogout StringToNumber).
Local Abbreviation login_commit :=
  (login_commit JSON_stringify StringToNumber).
Local Abbreviation step := (step JSON_stringify StringToNumber).
Local Abbreviation run := (run JSON_stringify StringToNumber).
Local Abbreviation render := (render StringToNumber).
Local Abbreviation mount := (mount JSON_parse StringToNumber).
Local Abbreviation login := (login JSON_stringify StringToNumber).

(** Arming either leaves the session and the store alone or logs out. *)
Lemma scheduleAutoLogout_keeps_or_logs_out now ex st :
  let st' := scheduleAutoLogout now ex st in
  (user st' = user st /\ storage st' = storage st) \/
  (user st' = VNull /\ storage st' = None).
Proof.
  unfold Auth.scheduleAutoLogout. cbv zeta.
  destruct (truthy ex); simpl.
  - destruct (leb _ _).
    + right. now rewrite logout_user, logout_storage.
    + left. simpl.
      now rewrite clearLogoutTimer_user, clearLogoutTimer_storage.
  - left. now rewrite clearLogoutTimer_user, clearLogoutTimer_storage.
Qed.

Lemma render_keeps_or_logs_out now st :
  (user (render now st) = user st /\ storage (render now st) = storage st) \/
  (user (render now st) = VNull /\ storage (render now st) = None).
Proof.
  unfold Auth.render. destruct (same_value _ _); [now left|].
  unfold Auth.expiry_effect. destruct (truthy _).
  - destruct (scheduleAutoLogout_keeps_or_logs_out now
                (opt_get
                   (user (clearLogoutTimer
                            (set_dep (opt_get (user st) "expiresAt") st)))
                   "expiresAt")
                (clearLogoutTimer (set_dep (opt_get (user st) "expiresAt") st)))
      as [[Hu Hs]|H]; [left|right; exact H].
    rewrite Hu, Hs. now rewrite clearLogoutTimer_user, clearLogoutTimer_storage.
  - left. now rewrite !clearLogoutTimer_user, !clearLogoutTimer_storage.
Qed.

Lemma login_commit_keeps_or_logs_out now p st :
  let st' := login_commit now p st in
  (user st' = VObj (toStore p) /\
   storage st' = Some (JSON_stringify (VObj (toStore p)))) \/
  (user st' = VNull /\ storage st' = None).
Proof.
  unfold Auth.login_commit. cbv zeta.
  destruct (scheduleAutoLogout_keeps_or_logs_out now (expiresAt p)
              (setUser (VObj (toStore p))
                 (setItem (JSON_stringify (VObj (toStore p))) st)))
    as [[Hu Hs]|H]; [left|right; exact H].
  now rewrite Hu, Hs.
Qed.

(** A property of the session and the store that [logout] establishes,
    that every completed [login] establishes, and that survives when both
    are left alone, holds after every event. *)
Lemma step_session_store (P : value -> option string -> Prop) ev w :
  P VNull None ->
  (forall o, P (VObj o) (Some (JSON_stringify (VObj o)))) ->
  P (user (app w)) (storage (app w)) ->
  P (user (app (step ev w))) (storage (app (step ev w))).
Proof.
  intros Hout Hin Hw. destruct ev as [now ud|now i r| |now h|now]; simpl.
  - destruct (wants_role _); simpl; auto.
    destruct (login_commit_keeps_or_logs_out now (login_prepare now ud) (app w))
      as [[-> ->]|[-> ->]]; auto.
  - destruct (nth_error (inflight w) i) as [p|]; auto.
    rewrite login_resume_commit. simpl.
    destruct (login_commit_keeps_or_logs_out now
                (mkPending (enriched p r) (expiresAt p)) (app w))
      as [[-> ->]|[-> ->]]; auto.
  - now rewrite logout_user, logout_storage.
  - destruct (existsb _ _); auto. simpl.
    now rewrite logout_user, logout_storage.
  - destruct (render_keeps_or_logs_out now (app w)) as [[-> ->]|[-> ->]]; auto.
Qed.

Lemma run_session_store (P : value -> option string -> Prop) evs w :
  P VNull None ->
  (forall o, P (VObj o) (Some (JSON_stringify (VObj o)))) ->
  P (user (app w)) (storage (app w)) ->
  P (user (app (run evs w))) (storage (app (run evs w))).
Proof.
  intros Hout Hin. revert w.
  induction evs as [|ev evs IH]; intros w Hw; simpl; auto.
  apply IH. now apply step_session_store.
Qed.

(** X2.  From mount on, whatever the events, an authenticated state has a
    persisted entry; and when the store was empty at mount, the store and
    the in-memory session never diverge: either both are empty, or the
    session is an object and the entry is its serialization. *)
Theorem X2_store_follows_session now stored st0 evs :
  mount now stored = inr st0 ->
  let st := app (run evs (mkWorld st0 [])) in
  (authenticated st = true -> storage st <> None) /\
  (stored = None ->
   (user st = VNull /\ storage st = None) \/
   (exists o, user st = VObj o /\
              storage st = Some (JSON_stringify (VObj o)))).
Proof.
  intros Hm. cbv zeta. split.
  - apply (run_session_store
             (fun u s => truthy u = true -> s <> None)); simpl.
    + discriminate.
    + discriminate.
    + destruct (mount_hydrate _ _ _ _ _ Hm) as [st1 [H1 ->]]. simpl.
      intros Ht. destruct stored as [raw|].
      * destruct (string_dec raw "") as [->|Hne].
        -- rewrite hydrate_empty in H1 by reflexivity.
           inversion H1. subst. discriminate.
        -- destruct (JSON_parse raw) as [e|rec] eqn:Ep.
           ++ rewrite (hydrate_unparsable _ _ now (initial (Some raw)) raw e
                         eq_refl Hne Ep) in H1.
              inversion H1. subst. discriminate.
           ++ rewrite (hydrate_parsed _ _ now (initial (Some raw)) raw rec
                         eq_refl Hne Ep) in H1.
              inversion H1. subst.
              destruct (expired _ _ _); simpl in *; discriminate.
      * rewrite hydrate_absent in H1 by reflexivity.
        inversion H1. subst. discriminate.
  - intros ->.
    apply (run_session_store
             (fun u s =>
                (u = VNull /\ s = None) \/
                (exists o, u = VObj o /\
                           s = Some (JSON_stringify (VObj o))))); simpl.
    + now left.
    + intros o. right. now exists o.
    + destruct (mount_hydrate _ _ _ _ _ Hm) as [st1 [H1 ->]].
      rewrite hydrate_absent in H1 by reflexivity.
      inversion H1. subst. now left.
Qed.

End SessionInvariants.

Section SessionLifecycle.

Variable JSON_parse : string -> js value.
Variable JSON_stringify : value -> string.
Variable StringToNumber : string -> number.

Local Abbreviation ToNumber := (ToNumber StringToNumber).
Local Abbreviation scheduleAutoLogout := (scheduleAutoLogout StringToNumber).
Local Abbreviation login_commit :=
  (login_commit JSON_stringify StringToNumber).
Local Abbreviation step := (step JSON_stringify StringToNumber).
Local Abbreviation run := (run JSON_stringify StringToNumber).
Local Abbreviation render := (render StringToNumber).
Local Abbreviation mount := (mount JSON_parse StringToNumber).
Local Abbreviation login := (login JSON_stringify StringToNumber).
Local Abbreviation login_call := (login_call JSON_stringify StringToNumber).

(** With a truthy [expiresAt], arming either logs out or leaves exactly one
    timeout pending, due no earlier than now. *)
Lemma scheduleAutoLogout_truthy now ex st :
  truthy ex = true -> single_timer st ->
  let st' := scheduleAutoLogout now ex st in
  (user st' = VNull /\ storage st' = None /\ disarmed st') \/
  (user st' = user st /\ storage st' = storage st /\
   exists due, now <= due /\ armed due st').
Proof.
  intros Ht Hs. unfold Auth.scheduleAutoLogout. cbv zeta. rewrite Ht. simpl.
  pose proof (clearLogoutTimer_disarmed st Hs) as Hd.
  destruct (leb _ _).
  - left. rewrite logout_user, logout_storage.
    split; auto. split; auto. now apply logout_disarmed, disarmed_single.
  - right. simpl.
    rewrite clearLogoutTimer_user, clearLogoutTimer_storage.
    split; auto. split; auto.
    destruct Hd as [Htm _].
    eexists. split; [|exists (next_handle (clearLogoutTimer st)); simpl;
                       rewrite Htm; simpl; split; reflexivity].
    destruct (sub _ _); lia.
Qed.

Lemma login_prepare_truthy now userData :
  0 <= now -> truthy (expiresAt (login_prepare now userData)) = true.
Proof.
  intros Hn. unfold login_prepare, or_else. cbn [expiresAt].
  destruct (truthy (opt_get userData "expiresAt")) eqn:E; auto.
  unfold computeExpiry. cbn [truthy]. apply negb_true_iff, Z.eqb_neq. lia.
Qed.

Lemma login_commit_truthy now p st :
  truthy (expiresAt p) = true -> single_timer st ->
  let st' := login_commit now p st in
  (user st' = VNull /\ storage st' = None /\ disarmed st') \/
  (user st' = VObj (toStore p) /\
   storage st' = Some (JSON_stringify (VObj (toStore p))) /\
   exists due, now <= due /\ armed due st').
Proof.
  intros Ht Hs. unfold Auth.login_commit. cbv zeta.
  destruct (scheduleAutoLogout_truthy now (expiresAt p)
              (setUser (VObj (toStore p))
                 (setItem (JSON_stringify (VObj (toStore p))) st)) Ht)
    as [H|[Hu [Hst Ha]]].
  - revert Hs. now apply single_timer_ext.
  - now left.
  - right. rewrite Hu, Hst. auto.
Qed.

(** [login] over a store that can refuse the write: the record it
    serializes, and what the outcome of the write makes of the call. *)
Lemma login_checked_cases accepts now now' userData get_me st :
  let p := login_prepare now userData in
  let o := if wants_role p then enriched p get_me else toStore p in
  let c := if wants_role p then now' else now in
  login_checked JSON_stringify StringToNumber accepts now now' userData
    get_me st =
  if accepts (JSON_stringify (VObj o))
  then inr (login_commit c (mkPending o (expiresAt p)) st)
  else inl quota_exceeded.
Proof.
  cbv zeta. unfold login_checked.
  destruct (wants_role (login_prepare now userData)).
  - unfold login_resume_checked, enriched.
    destruct (fetchCurrentUser _ get_me);
      cbn [bind ret catch Monad_either Exception_either];
      unfold login_commit_checked, setItem_checked; cbn [toStore expiresAt];
      destruct (accepts _); reflexivity.
  - unfold login_commit_checked, setItem_checked.
    destruct (login_prepare now userData) as [o ex]. cbn [toStore expiresAt].
    destruct (accepts _); reflexivity.
Qed.

(** X3.  A [login] call made at a non-negative clock throws only when the
    write to the store throws, whatever the profile request does, and then
    it is the store's exception that escapes.  When the store takes the
    write, the call returns and never leaves an authenticated state without
    its expiry timeout: afterwards either the user is logged out with the
    persisted entry removed and no timeout pending, or the session is in
    memory, its serialization is persisted, and exactly one timeout is
    pending, held by the ref and due no earlier than the call. *)
Theorem X3_login_arms_or_logs_out accepts now now' userData get_me st :
  0 <= now -> now <= now' -> single_timer st ->
  exists o,
    get "expiresAt" o = expiresAt (login_prepare now userData) /\
    (accepts (JSON_stringify (VObj o)) = false ->
     login_checked JSON_stringify StringToNumber accepts now now' userData
       get_me st = inl quota_exceeded) /\
    (accepts (JSON_stringify (VObj o)) = true ->
     exists st',
       login_checked JSON_stringify StringToNumber accepts now now' userData
         get_me st = inr st' /\
       login now now' userData get_me st = inr st' /\
       ((user st' = VNull /\ storage st' = None /\ disarmed st') \/
        (exists due,
           user st' = VObj o /\
           storage st' = Some (JSON_stringify (VObj o)) /\
           now <= due /\ armed due st'))).
Proof.
  intros Hn Hle Hs.
  pose proof (login_prepare_truthy now userData Hn) as Ht.
  pose proof (login_checked_cases accepts now now' userData get_me st) as Hc.
  cbv zeta in Hc. unfold Auth.login.
  destruct (wants_role (login_prepare now userData)).
  - exists (enriched (login_prepare now userData) get_me).
    split; [rewrite enriched_get by discriminate;
            apply login_prepare_expiresAt|].
    rewrite Hc. split; [now intros ->|]. intros ->.
    eexists. split; [reflexivity|].
    split; [apply login_resume_commit|].
    destruct (login_commit_truthy now'
                (mkPending (enriched (login_prepare now userData) get_me)
                           (expiresAt (login_prepare now userData))) st Ht Hs)
      as [H|[Hu [Hst [due [Hd Ha]]]]]; [now left|right].
    exists due. cbn [toStore] in *. repeat split; auto. lia.
  - exists (toStore (login_prepare now userData)).
    split; [apply login_prepare_expiresAt|].
    rewrite Hc. split; [now intros ->|]. intros ->.
    assert (mkPending (toStore (login_prepare now userData))
                      (expiresAt (login_prepare now userData)) =
            login_prepare now userData) as ->
      by (now destruct (login_prepare now userData)).
    eexists. split; [reflexivity|]. split; [reflexivity|].
    destruct (login_commit_truthy now (login_prepare now userData) st Ht Hs)
      as [H|[Hu [Hst [due [Hd Ha]]]]]; [now left|right].
    exists due. repeat split; auto.
Qed.


Lemma truthy_not_undefined v : truthy v = true -> same_value v VUndefined = false.
Proof. now destruct v. Qed.

(** X5.  A session restored at mount is given its expiry timeout by the
    first render: when its [expiresAt] is still ahead, and no further than
    [max_delay], the session and the entry stay and one timeout is
    pending, due at [expiresAt]; when that timeout fires at its due time
    the user is logged out and the entry removed.  When [expiresAt] has
    been reached by the first render, that render logs out. *)
Theorem X5_restored_session_expires now stored st0 e t :
  mount now stored = inr st0 ->
  truthy (opt_get (user st0) "expiresAt") = true ->
  ToNumber (opt_get (user st0) "expiresAt") = Int e ->
  let st1 := render t st0 in
  (t < e -> e - t <= max_delay ->
   user st1 = user st0 /\ storage st1 = storage st0 /\ armed e st1 /\
   forall h t', logoutTimerRef st1 = Some h -> e <= t' ->
     let w := step (Fire t' h) (mkWorld st1 []) in
     user (app w) = VNull /\ storage (app w) = None /\ disarmed (app w)) /\
  (e <= t -> user st1 = VNull /\ storage st1 = None /\ disarmed st1).
Proof.
  intros Hm Ht Hn. cbv zeta.
  destruct (mount_disarmed _ _ _ _ _ Hm) as [Hd _].
  destruct (mount_hydrate _ _ _ _ _ Hm) as [sth [_ Hdep]].
  assert (effect_dep st0 = VUndefined) as Hdep' by (now subst st0).
  assert (render t st0 =
          scheduleAutoLogout t (opt_get (user st0) "expiresAt")
            (clearLogoutTimer
               (set_dep (opt_get (user st0) "expiresAt") st0))) as Hr.
  { unfold Auth.render. rewrite Hdep', (truthy_not_undefined _ Ht).
    unfold Auth.expiry_effect. rewrite clearLogoutTimer_user. simpl user.
    now rewrite Ht. }
  assert (single_timer
            (clearLogoutTimer
               (set_dep (opt_get (user st0) "expiresAt") st0))) as Hs.
  { apply disarmed_single, clearLogoutTimer_disarmed, disarmed_single.
    exact Hd. }
  rewrite Hr. split.
  - intros Hlt _.
    destruct (scheduleAutoLogout_future StringToNumber t _ e
                (clearLogoutTimer
                   (set_dep (opt_get (user st0) "expiresAt") st0))
                Ht Hn Hlt) as [Hu [Hst [_ [_ Ha]]]].
    rewrite clearLogoutTimer_user in Hu.
    rewrite clearLogoutTimer_storage in Hst. simpl in Hu, Hst.
    specialize (Ha Hs). split; auto. split; auto. split; auto.
    intros h t' Hh Hle. destruct Ha as [h' [Htm Href]].
    assert (h' = h) as -> by congruence.
    now apply (fire_armed JSON_stringify StringToNumber t' h e
                 (mkWorld _ [])).
  - intros Hle.
    rewrite (scheduleAutoLogout_past StringToNumber t _ e _ Ht Hn Hle).
    rewrite logout_user, logout_storage. split; auto. split; auto.
    apply logout_disarmed, disarmed_single, clearLogoutTimer_disarmed, Hs.
Qed.

(** X6.  A session restored at mount whose [expiresAt] is absent or falsy
    never expires: through any renders and timer callbacks it stays the
    in-memory session, its entry stays persisted, and no timeout is ever
    pending. *)
Theorem X6_session_without_expiry_is_kept now stored st0 evs :
  mount now stored = inr st0 ->
  truthy (opt_get (user st0) "expiresAt") = false ->
  forallb passive evs = true ->
  let st := app (run evs (mkWorld st0 [])) in
  user st = user st0 /\ storage st = storage st0 /\ disarmed st.
Proof.
  intros Hm Hf. cbv zeta.
  destruct (mount_disarmed _ _ _ _ _ Hm) as [Hd _].
  assert (forall w,
            user (app w) = user st0 -> storage (app w) = storage st0 ->
            disarmed (app w) -> forallb passive evs = true ->
            user (app (run evs w)) = user st0 /\
            storage (app (run evs w)) = storage st0 /\
            disarmed (app (run evs w))) as H.
  { induction evs as [|ev evs IH]; intros w Hu Hs Hdis Hp; simpl; auto.
    simpl in Hp. apply andb_true_iff in Hp. destruct Hp as [Hev Hp].
    destruct ev as [? ?|? ? ?| |t h|t]; try discriminate.
    - assert (step (Fire t h) w = w) as ->.
      { simpl. destruct Hdis as [Htm _]. now rewrite Htm. }
      now apply IH.
    - destruct (render_disarmed StringToNumber t (app w)) as [Hd' [Hu' Hs']];
        [now rewrite Hu | exact Hdis |].
      apply IH; simpl; auto; congruence. }
  now apply H.
Qed.

End SessionLifecycle.

Section OverlappingLogins.

Variable JSON_stringify : value -> string.
Variable StringToNumber : string -> number.

Local Abbreviation ToNumber := (ToNumber StringToNumber).
Local Abbreviation login_commit :=
  (login_commit JSON_stringify StringToNumber).
Local Abbreviation step := (step JSON_stringify StringToNumber).
Local Abbreviation run := (run JSON_stringify StringToNumber).

Lemma step_login_pending t ud w :
  wants_role (login_prepare t ud) = true ->
  step (Login t ud) w =
  mkWorld (app w) (inflight w ++ [login_prepare t ud])%list.
Proof. intros H. simpl. now rewrite H. Qed.

Lemma step_settle s i r p w :
  nth_error (inflight w) i = Some p ->
  step (Settle s i r) w =
  mkWorld (login_commit s (mkPending (enriched p r) (expiresAt p)) (app w))
          (remove_nth i (inflight w)).
Proof.
  intros H. cbn [Auth.step]. rewrite H, login_resume_commit. reflexivity.
Qed.

(** X7.  When two [login] calls overlap (both waiting for their profile
    request), the session that remains is the one of the call whose request
    settles last, not of the call made last: each settlement overwrites the
    session, the entry and the timeout of the one before. *)
Theorem X7_last_settlement_wins t1 t2 s1 s2 ud1 ud2 r1 r2 w e1 e2 :
  inflight w = [] -> single_timer (app w) ->
  wants_role (login_prepare t1 ud1) = true ->
  wants_role (login_prepare t2 ud2) = true ->
  0 <= t1 -> 0 <= t2 ->
  ToNumber (expiresAt (login_prepare t1 ud1)) = Int e1 ->
  ToNumber (expiresAt (login_prepare t2 ud2)) = Int e2 ->
  s2 < e1 -> s2 < e2 ->
  let w2 := run [Login t1 ud1; Login t2 ud2] w in
  let second_first := app (run [Settle s1 1 r2; Settle s2 0 r1] w2) in
  let first_first := app (run [Settle s1 0 r1; Settle s2 0 r2] w2) in
  (user second_first = VObj (enriched (login_prepare t1 ud1) r1) /\
   storage second_first =
     Some (JSON_stringify (VObj (enriched (login_prepare t1 ud1) r1))) /\
   armed e1 second_first) /\
  (user first_first = VObj (enriched (login_prepare t2 ud2) r2) /\
   storage first_first =
     Some (JSON_stringify (VObj (enriched (login_prepare t2 ud2) r2))) /\
   armed e2 first_first).
Proof.
  intros Hin Hs Hw1 Hw2 Ht1 Ht2 Hn1 Hn2 Hlt1 Hlt2. cbv zeta.
  pose proof (login_prepare_truthy t1 ud1 Ht1) as Htr1.
  pose proof (login_prepare_truthy t2 ud2 Ht2) as Htr2.
  assert (run [Login t1 ud1; Login t2 ud2] w =
          mkWorld (app w) [login_prepare t1 ud1; login_prepare t2 ud2]) as ->.
  { unfold Auth.run; cbn [fold_left]. rewrite (step_login_pending t1 ud1 w Hw1).
    rewrite (step_login_pending t2 ud2 _ Hw2). cbn [app inflight].
    now rewrite Hin. }
  remember (login_prepare t1 ud1) as p1 eqn:Ep1.
  remember (login_prepare t2 ud2) as p2 eqn:Ep2.
  split.
  - unfold Auth.run; cbn [fold_left].
    rewrite (step_settle s1 1 r2 p2) by reflexivity. cbn [app inflight remove_nth].
    rewrite (step_settle s2 0 r1 p1) by reflexivity. cbn [app inflight].
    destruct (login_commit_future JSON_stringify StringToNumber s2
                (mkPending (enriched p1 r1) (expiresAt p1)) e1
                (login_commit s1 (mkPending (enriched p2 r2) (expiresAt p2))
                   (app w)) Htr1 Hn1 Hlt1) as [Hu [Hst [_ [_ Ha]]]].
    split; auto. split; auto. apply Ha. now apply login_commit_single.
  - unfold Auth.run; cbn [fold_left].
    rewrite (step_settle s1 0 r1 p1) by reflexivity. cbn [app inflight remove_nth].
    rewrite (step_settle s2 0 r2 p2) by reflexivity. cbn [app inflight].
    destruct (login_commit_future JSON_stringify StringToNumber s2
                (mkPending (enriched p2 r2) (expiresAt p2)) e2
                (login_commit s1 (mkPending (enriched p1 r1) (expiresAt p1))
                   (app w)) Htr2 Hn2 Hlt2) as [Hu [Hst [_ [_ Ha]]]].
    split; auto. split; auto. apply Ha. now apply login_commit_single.
Qed.

End OverlappingLogins.

(* ===================================================================== *)
(** ** Further properties of the service helpers *)
(* ===================================================================== *)

Lemma has_key_set k k' v o :
  has_key k (set k' v o) = ((k =? k')%string || has_key k o).
Proof.
  induction o as [|[k0 v0] o IH]; cbn [set has_key existsb fst].
  - reflexivity.
  - destruct (k' =? k0)%string eqn:E; cbn [has_key existsb fst].
    + apply String.eqb_eq in E. subst k0.
      now destruct (k =? k')%string.
    + fold (has_key k (set k' v o)). fold (has_key k o). rewrite IH.
      destruct (k =? k0)%string, (k =? k')%string; reflexivity.
Qed.

Lemma distinct_keys_set k v o :
  distinct_keys o = true -> distinct_keys (set k v o) = true.
Proof.
  induction o as [|[k0 v0] o IH]; cbn [set distinct_keys]; auto.
  intros H. apply andb_true_iff in H. destruct H as [Hk Hd].
  destruct (k =? k0)%string eqn:E; cbn [distinct_keys].
  - now rewrite Hk, Hd.
  - rewrite has_key_set, IH by exact Hd.
    apply negb_true_iff in Hk. rewrite Hk, String.eqb_sym, E. reflexivity.
Qed.

Lemma distinct_keys_spread_into acc more :
  distinct_keys acc = true -> distinct_keys (spread_into acc more) = true.
Proof.
  unfold spread_into. revert acc.
  induction more as [|[k v] more IH]; intros acc H; simpl; auto.
  apply IH. now apply distinct_keys_set.
Qed.

Lemma set_app_fresh k v base acc :
  has_key k base = false -> set k v (base ++ acc)%list = (base ++ set k v acc)%list.
Proof.
  induction base as [|[k0 v0] base IH]; simpl; auto.
  intros H. apply orb_false_iff in H. destruct H as [-> H].
  now rewrite IH.
Qed.

(** Spreading properties that [base] does not name leaves [base] in front. *)
Lemma spread_into_app base acc more :
  (forall kv, In kv more -> has_key (fst kv) base = false) ->
  spread_into (base ++ acc)%list more = (base ++ spread_into acc more)%list.
Proof.
  unfold spread_into. revert acc.
  induction more as [|[k v] more IH]; intros acc H; simpl; auto.
  rewrite set_app_fresh by (apply (H (k, v)); now left).
  apply IH. intros kv Hin. apply H. now right.
Qed.

Lemma spread_into_distinct acc more :
  distinct_keys (acc ++ more)%list = true ->
  spread_into acc more = (acc ++ more)%list.
Proof.
  unfold spread_into. revert acc.
  induction more as [|[k v] more IH]; intros acc H; simpl.
  - now rewrite app_nil_r.
  - rewrite (set_fresh k v acc more H).
    rewrite IH; rewrite <- app_assoc; auto.
Qed.

Lemma unpicked_set k v o :
  is_picked k = false ->
  forallb (fun kv => negb (is_picked (fst kv))) o = true ->
  forallb (fun kv => negb (is_picked (fst kv))) (set k v o) = true.
Proof.
  intros Hk. induction o as [|[k0 v0] o IH]; cbn [set forallb fst].
  - now rewrite Hk.
  - intros H. apply andb_true_iff in H. destruct H as [H0 H].
    destruct (k =? k0)%string; cbn [forallb fst]; rewrite H0; auto.
Qed.

Lemma unpicked_spread_into acc more :
  forallb (fun kv => negb (is_picked (fst kv))) acc = true ->
  forallb (fun kv => negb (is_picked (fst kv))) more = true ->
  forallb (fun kv => negb (is_picked (fst kv))) (spread_into acc more) = true.
Proof.
  unfold spread_into. revert acc.
  induction more as [|[k v] more IH]; intros acc Ha Hm; simpl; auto.
  cbn [forallb fst] in Hm. apply andb_true_iff in Hm. destruct Hm as [Hk Hm].
  apply IH; auto. apply unpicked_set; auto. now apply negb_true_iff.
Qed.

Lemma unpicked_rest_of o :
  forallb (fun kv => negb (is_picked (fst kv))) (rest_of o) = true.
Proof.
  unfold rest_of. apply forallb_forall. intros kv Hin.
  now apply filter_In in Hin.
Qed.

Lemma rest_of_unpicked o :
  forallb (fun kv => negb (is_picked (fst kv))) o = true -> rest_of o = o.
Proof.
  unfold rest_of. induction o as [|kv o IH]; cbn [forallb filter]; auto.
  intros H. apply andb_true_iff in H. destruct H as [-> H]. now rewrite IH.
Qed.

Lemma has_key_unpicked k o :
  is_picked k = true ->
  forallb (fun kv => negb (is_picked (fst kv))) o = true ->
  has_key k o = false.
Proof.
  intros Hk. induction o as [|[k0 v0] o IH]; cbn [forallb has_key existsb fst];
    auto.
  intros H. apply andb_true_iff in H. destruct H as [H0 H].
  fold (has_key k o). rewrite IH by exact H.
  destruct (k =? k0)%string eqn:E; auto.
  apply String.eqb_eq in E. subst k0. now rewrite Hk in H0.
Qed.

Lemma or_else_twice a b : ((a ||| b) ||| b) = (a ||| b).
Proof. unfold or_else. destruct (truthy a) eqn:E; [now rewrite E|]. now destruct (truthy b). Qed.

Lemma or_else_default a b c : truthy b = true ->
  (((a ||| b) ||| c) ||| b) = (a ||| b).
Proof.
  intros Hb. unfold or_else.
  destruct (truthy a) eqn:E; rewrite ?E, ?Hb; reflexivity.
Qed.

(** What [normalizeUser] returns for an object: the six properties it
    builds, followed by the properties it does not pick. *)
Lemma normalizeUser_shape (o : obj) :
  normalizeUser (VObj o) =
  VObj ([("id", get "id" o ||| get "_id" o ||| get "userId" o ||| VUndefined);
         ("username", get "username" o ||| VUndefined);
         ("email", get "email" o ||| VUndefined);
         ("role", get "role" o ||| VUndefined ||| VStr "user");
         ("createdAt", get "createdAt" o);
         ("updatedAt", get "updatedAt" o)] ++ spread_into [] (rest_of o))%list.
Proof.
  unfold normalizeUser. cbn [truthy is_object_type negb orb spread].
  rewrite !get_rest_of_picked by reflexivity.
  f_equal.
  rewrite <- spread_into_app.
  - now rewrite app_nil_r.
  - intros [k v] Hin. cbn [fst].
    pose proof (unpicked_rest_of o) as Hu.
    rewrite forallb_forall in Hu. specialize (Hu _ Hin). cbn [fst] in Hu.
    apply negb_true_iff in Hu.
    unfold is_picked, picked in Hu. cbn [existsb] in Hu.
    repeat (apply orb_false_iff in Hu; destruct Hu as [? Hu]).
    cbn [has_key existsb fst].
    repeat (apply orb_false_iff; split; auto).
Qed.

Lemma normalizeUser_other raw :
  (forall o, raw <> VObj o) -> normalizeUser raw = raw.
Proof.
  intros H. unfold normalizeUser.
  destruct raw; cbn [is_object_type negb orb]; rewrite ?orb_true_r; auto.
  exfalso. eapply H. reflexivity.
Qed.

(** X9.  [normalizeUser] is idempotent: normalizing a user that is already
    normalized changes nothing, for every value. *)
Theorem X9_normalizeUser_is_idempotent (raw : value) :
  normalizeUser (normalizeUser raw) = normalizeUser raw.
Proof.
  destruct raw as [| |b|n|s|o];
    try (match goal with
         | |- normalizeUser (normalizeUser ?v) = _ =>
             assert (normalizeUser v = v) as E
               by (apply normalizeUser_other; discriminate);
             now rewrite !E
         end).
  rewrite (normalizeUser_shape o).
  set (R := spread_into [] (rest_of o)).
  assert (forallb (fun kv => negb (is_picked (fst kv))) R = true) as HR
    by (apply unpicked_spread_into; [reflexivity | apply unpicked_rest_of]).
  assert (distinct_keys R = true) as HD
    by (now apply distinct_keys_spread_into).
  rewrite normalizeUser_shape.
  assert (forall k, is_picked k = true -> get k R = VUndefined) as Hget.
  { intros k Hk. apply get_no_key. now apply has_key_unpicked. }
  simpl get.
  rewrite !Hget by reflexivity.
  assert (rest_of R = R) as HrR by (now apply rest_of_unpicked).
  unfold rest_of at 1. rewrite filter_app. fold (rest_of R). rewrite HrR.
  simpl filter. rewrite app_nil_l.
  rewrite (spread_into_distinct [] R) by exact HD. rewrite app_nil_l.
  rewrite !or_else_twice, or_else_default by reflexivity. reflexivity.
Qed.

Lemma has_key_rest_of k o : has_key k o = false -> has_key k (rest_of o) = false.
Proof.
  unfold rest_of.
  induction o as [|[k0 v0] o IH]; cbn [has_key existsb filter fst]; auto.
  intros H. apply orb_false_iff in H. destruct H as [H0 H].
  destruct (negb (is_picked k0)); cbn [has_key existsb fst]; auto.
  rewrite H0. now apply IH.
Qed.

Lemma distinct_keys_rest_of o :
  distinct_keys o = true -> distinct_keys (rest_of o) = true.
Proof.
  induction o as [|[k0 v0] o IH]; auto.
  cbn [distinct_keys]. intros H. apply andb_true_iff in H.
  destruct H as [Hk Hd]. unfold rest_of. cbn [filter fst].
  fold (rest_of o).
  destruct (negb (is_picked k0)); auto.
  cbn [distinct_keys]. rewrite IH by exact Hd.
  apply negb_true_iff in Hk. now rewrite has_key_rest_of.
Qed.

Lemma get_rest_of_other k o :
  is_picked k = false -> get k (rest_of o) = get k o.
Proof.
  intros Hk. unfold rest_of.
  induction o as [|[k0 v0] o IH]; cbn [filter get fst]; auto.
  destruct (is_picked k0) eqn:E; cbn [negb get].
  - destruct (k =? k0)%string eqn:Ek; auto.
    apply String.eqb_eq in Ek. subst k0. congruence.
  - now rewrite IH.
Qed.

Lemma get_app k a b :
  get k (a ++ b)%list = if has_key k a then get k a else get k b.
Proof.
  induction a as [|[k0 v0] a IH]; cbn [List.app get has_key existsb fst]; auto.
  destruct (k =? k0)%string; auto.
Qed.

Lemma get_unpicked k o :
  is_picked k = true ->
  forallb (fun kv => negb (is_picked (fst kv))) o = true ->
  get k o = VUndefined.
Proof. intros Hk Ho. apply get_no_key. now apply has_key_unpicked. Qed.

(** X10.  On an object (with distinct property names), [normalizeUser]
    neither drops nor alters a property outside the eight it picks; its
    result never carries the aliases [_id] and [userId]; [username] and
    [email] are the raw ones when truthy and [undefined] otherwise; and
    [createdAt] and [updatedAt] are passed through. *)
Theorem X10_normalizeUser_keeps_other_properties (o : obj) :
  distinct_keys o = true ->
  exists n,
    normalizeUser (VObj o) = VObj n /\
    (forall k, is_picked k = false -> get k n = get k o) /\
    get "_id" n = VUndefined /\ get "userId" n = VUndefined /\
    get "username" n = coalesce [get "username" o] /\
    get "email" n = coalesce [get "email" o] /\
    get "createdAt" n = get "createdAt" o /\
    get "updatedAt" n = get "updatedAt" o.
Proof.
  intros Hd. eexists. split; [apply normalizeUser_shape|].
  pose proof (unpicked_rest_of o) as Hu.
  rewrite (spread_into_distinct [] (rest_of o))
    by (now apply distinct_keys_rest_of).
  rewrite app_nil_l.
  split.
  - intros k Hk. rewrite get_app.
    assert (has_key k
              [("id", get "id" o ||| get "_id" o ||| get "userId" o
                      ||| VUndefined);
               ("username", get "username" o ||| VUndefined);
               ("email", get "email" o ||| VUndefined);
               ("role", get "role" o ||| VUndefined ||| VStr "user");
               ("createdAt", get "createdAt" o);
               ("updatedAt", get "updatedAt" o)] = false) as ->.
    { unfold is_picked, picked in Hk. cbn [existsb] in Hk.
      repeat (apply orb_false_iff in Hk; destruct Hk as [? Hk]).
      cbn [has_key existsb fst].
      repeat (apply orb_false_iff; split; auto). }
    now apply get_rest_of_other.
  - rewrite !get_app. simpl has_key. cbv iota.
    rewrite !(get_unpicked _ (rest_of o)) by (reflexivity || exact Hu).
    simpl get. unfold or_else.
    repeat split;
      match goal with
      | |- context [truthy ?v] => now destruct (truthy v)
      | _ => reflexivity
      end.
Qed.

Lemma coalesce_falsy vs : truthy (coalesce vs) = false -> coalesce vs = VUndefined.
Proof.
  induction vs as [|v vs IH]; simpl; auto.
  destruct (truthy v) eqn:E; auto. congruence.
Qed.

(** X8.  When the profile request of a token-only [login] resolves with a
    user object, the session that is committed has a truthy role (the
    profile's when truthy, the default ["user"] otherwise), takes its id
    from the profile ([id], [_id] or [userId]) unless the caller gave a
    truthy one, and keeps every other property of the caller's record,
    [token] and [expiresAt] included. *)
Theorem X8_enriched_session_has_role (p : pending) (data : value) (o : obj) :
  wants_role p = true ->
  (opt_get data "user" ||| data) = VObj o ->
  let s := enriched p (inr data) in
  get "role" s = (get "role" o ||| VStr "user") /\
  truthy (get "role" s) = true /\
  get "id" s =
    (get "id" (toStore p)
     ||| coalesce [get "id" o; get "_id" o; get "userId" o]) /\
  forall k, k <> "role" -> k <> "id" -> get k s = get k (toStore p).
Proof.
  intros Hw Ho. cbv zeta.
  unfold wants_role in Hw. apply andb_true_iff in Hw. destruct Hw as [Hr Ht].
  apply negb_true_iff in Hr.
  assert (enriched p (inr data) = assign_role_id (normalizeUser (VObj o))
                                    (toStore p)) as He.
  { unfold enriched, fetchCurrentUser. rewrite Ht. cbn. now rewrite Ho. }
  assert (forall k, k <> "role" -> k <> "id" ->
            get k (enriched p (inr data)) = get k (toStore p)) as Hk
    by (intros k H1 H2; now apply enriched_get).
  rewrite He. rewrite He in Hk. clear He.
  destruct (normalizeUser_object o) as [n [Hn [Hrole Hid]]].
  assert (get "_id" n = VUndefined /\ get "userId" n = VUndefined) as [Ha Hb].
  { rewrite normalizeUser_shape in Hn. inversion Hn as [Hn']. clear Hn Hrole Hid. subst n.
    simpl get.
    split; apply get_unpicked; try reflexivity;
      (apply unpicked_spread_into; [reflexivity | apply unpicked_rest_of]). }
  rewrite Hn in *. unfold assign_role_id. cbn [opt_get].
  assert (truthy (get "role" n) = true) as Htr.
  { rewrite Hrole. unfold or_else. now destruct (truthy (get "role" o)) eqn:E. }
  assert ((get "role" n ||| get "role" (toStore p)) = get "role" n) as Hor
    by (unfold or_else; now rewrite Htr).
  rewrite Hor.
  split; [|split; [|split]].
  - rewrite get_set_other by discriminate. now rewrite get_set_same.
  - rewrite get_set_other by discriminate. rewrite get_set_same. exact Htr.
  - rewrite get_set_same, get_set_other by discriminate.
    rewrite Ha, Hb, Hid.
    set (c := coalesce [get "id" o; get "_id" o; get "userId" o]).
    pose proof (coalesce_falsy [get "id" o; get "_id" o; get "userId" o]) as Hc.
    fold c in Hc. rewrite or_else_twice. unfold or_else.
    destruct (truthy (get "id" (toStore p))) eqn:E1.
    + now rewrite E1.
    + destruct (truthy c) eqn:E2; [reflexivity | now rewrite Hc].
  - intros k H1 H2. now rewrite !get_set_other by auto.
Qed.


(** X12.  [fetchUserRole] without a usable token throws the missing-token
    error and with one passes a request failure on; when the response
    carries a user object it returns a truthy role (the raw role, or
    ["user"]); when the response body is [null] or absent it throws instead
    of returning. *)
Theorem X12_fetchUserRole_role_or_throw (token : value) (get_me : http_result) :
  (truthy token = false ->
   fetchUserRole token get_me = inl (Error "Missing auth token")) /\
  (truthy token = true ->
   (forall e, get_me = inl e -> fetchUserRole token get_me = inl e) /\
   (forall data o, get_me = inr data ->
      (opt_get data "user" ||| data) = VObj o ->
      fetchUserRole token get_me = inr (get "role" o ||| VStr "user") /\
      truthy (get "role" o ||| VStr "user") = true) /\
   (forall data, get_me = inr data -> data = VNull \/ data = VUndefined ->
      exists e, fetchUserRole token get_me = inl e)).
Proof.
  unfold fetchUserRole, fetchCurrentUser. split.
  - now intros ->.
  - intros ->. cbn [negb]. split; [|split].
    + now intros e ->.
    + intros data o -> Ho. cbn. rewrite Ho.
      destruct (normalizeUser_object o) as [n [-> [Hr _]]]. cbn.
      rewrite Hr. split; auto.
      unfold or_else. now destruct (truthy (get "role" o)) eqn:E.
    + intros data -> [->| ->]; cbn; eexists; reflexivity.
Qed.

(** X13.  [verifyToken] never throws: it answers [true] exactly when the
    token is truthy and the request resolved, and [false] otherwise, also
    when the request fails. *)
Theorem X13_verifyToken_never_throws (token : value) (get_me : http_result) :
  exists b,
    verifyToken token get_me = inr (VBool b) /\
    (b = true <-> truthy token = true /\ exists data, get_me = inr data).
Proof.
  unfold verifyToken.
  destruct (truthy token); cbn [negb].
  - destruct get_me as [e|data]; cbn.
    + exists false. split; auto. split; [discriminate|].
      intros [_ [d Hd]]. discriminate.
    + exists true. split; auto. split; auto. intros _. split; auto.
      now exists data.
  - exists false. split; auto. split; [discriminate|]. now intros [H _].
Qed.

Lemma has_key_spread_into k acc more :
  has_key k (spread_into acc more) = (has_key k acc || has_key k more).
Proof.
  unfold spread_into. revert acc.
  induction more as [|[k0 v0] more IH]; intros acc; simpl.
  - now rewrite orb_false_r.
  - rewrite IH, has_key_set. fold (has_key k more).
    destruct (k =? k0)%string, (has_key k acc); reflexivity.
Qed.

(** Outside the picked names, the normalized object reads as the spread of
    the rest does. *)
Lemma get_normalized_other k o :
  is_picked k = false ->
  opt_get (normalizeUser (VObj o)) k = get k (spread_into [] (rest_of o)).
Proof.
  intros Hk. rewrite normalizeUser_shape. cbn [opt_get]. rewrite get_app.
  match goal with |- (if ?b then _ else _) = _ =>
    assert (b = false) as ->; [|reflexivity] end.
  unfold is_picked, picked in Hk. cbn [existsb] in Hk.
  repeat (apply orb_false_iff in Hk; destruct Hk as [? Hk]).
  cbn [has_key existsb fst].
  repeat (apply orb_false_iff; split; auto).
Qed.

(** A property that the raw object does not have and that [normalizeUser]
    does not build is absent from the normalized one. *)
Lemma normalizeUser_no_key k o n :
  normalizeUser (VObj o) = VObj n ->
  is_picked k = false -> has_key k o = false -> get k n = VUndefined.
Proof.
  intros Hn Hk Ho. change (opt_get (VObj n) k = VUndefined).
  rewrite <- Hn, get_normalized_other by exact Hk.
  apply get_no_key. now rewrite has_key_spread_into, has_key_rest_of.
Qed.

Section Forms.

Variable JSON_stringify : value -> string.
Variable StringToNumber : string -> number.

Local Abbreviation step := (step JSON_stringify StringToNumber).

(** The login form on a well-formed response whose user object carries no
    [expiresAt]. *)
Lemma login_form_signs_in now data o w :
  0 <= now -> single_timer (app w) ->
  truthy (opt_get data "token") = true ->
  opt_get data "user" = VObj o ->
  has_key "expiresAt" o = false ->
  let w' := LoginPage.handleSubmit JSON_stringify StringToNumber now
              (inr data) w in
  exists s,
    user (app w') = VObj s /\
    storage (app w') = Some (JSON_stringify (VObj s)) /\
    get "token" s = opt_get data "token" /\
    get "role" s = (get "role" o ||| VStr "user") /\
    get "id" s = coalesce [get "id" o; get "_id" o; get "userId" o] /\
    get "_id" s = VUndefined /\ get "userId" s = VUndefined /\
    get "username" s = coalesce [get "username" o] /\
    get "expiresAt" s = VNum (Int (now + 3600000)) /\
    armed (now + 3600000) (app w') /\
    inflight w' = inflight w.
Proof.
  intros Hnow Hs Htok Hu Hex. cbv zeta.
  unfold LoginPage.handleSubmit, loginUser.
  cbn [bind ret raise Monad_either Exception_either].
  rewrite truthy_normalizeUser, Htok, Hu. cbn [truthy negb orb opt_get get].
  cbn [String.eqb Ascii.eqb Bool.eqb].
  destruct (normalizeUser_object o) as [n [Hn [Hrole Hid]]].
  pose proof (normalizeUser_no_key "expiresAt" o n Hn eq_refl Hex) as Hne.
  assert (get "_id" n = VUndefined /\ get "userId" n = VUndefined /\
          get "username" n = coalesce [get "username" o]) as [Ha [Hb Hc]].
  { rewrite normalizeUser_shape in Hn. inversion Hn as [Hn']. subst n.
    simpl get.
    split; [|split];
      try (apply get_unpicked; try reflexivity;
           apply unpicked_spread_into;
           [reflexivity | apply unpicked_rest_of]).
    unfold or_else. cbn [coalesce]. now destruct (truthy (get "username" o)). }
  simpl get. rewrite Hn. cbn [spread].
  set (ud := VObj (set "token" (opt_get data "token") n)).
  assert (expiresAt (login_prepare now ud) = VNum (Int (now + 3600000)))
    as Hexp.
  { unfold login_prepare, ud. cbn [expiresAt opt_get].
    rewrite get_set_other, Hne by discriminate.
    unfold or_else, computeExpiry. cbn [truthy]. do 2 f_equal. }
  assert (forall k, k <> "expiresAt" -> k <> "token" ->
            get k (toStore (login_prepare now ud)) = get k n) as Hget.
  { intros k H1 H2. unfold login_prepare, ud. cbn [toStore spread].
    now rewrite !get_set_other by assumption. }
  assert (wants_role (login_prepare now ud) = false) as Hw.
  { unfold wants_role. rewrite Hget by discriminate. rewrite Hrole.
    unfold or_else. now destruct (truthy (get "role" o)) eqn:E; rewrite ?E. }
  cbn [Auth.step]. rewrite Hw. cbn [app inflight].
  destruct (login_commit_future JSON_stringify StringToNumber now
              (login_prepare now ud) (now + 3600000) (app w))
    as [Hus [Hst [_ [_ Harm]]]].
  - rewrite Hexp. cbn [truthy]. apply negb_true_iff, Z.eqb_neq. lia.
  - now rewrite Hexp.
  - lia.
  - exists (toStore (login_prepare now ud)).
    split; [exact Hus|]. split; [exact Hst|].
    rewrite (Hget "role"), (Hget "id"), (Hget "_id"), (Hget "userId"),
      (Hget "username") by discriminate.
    split.
    { unfold login_prepare, ud. cbn [toStore spread].
      rewrite get_set_other by discriminate. apply get_set_same. }
    split; [exact Hrole|]. split; [exact Hid|]. split; [exact Ha|].
    split; [exact Hb|]. split; [exact Hc|].
    split; [now rewrite login_prepare_expiresAt|].
    split; [now apply Harm | reflexivity].
Qed.

(** X18.  The login form on a well-formed response (a truthy token and a
    user object without [expiresAt]) signs the user in at once, without the
    profile request: the session carries the response's token, a truthy
    role and the normalized id, expires one hour after the submission, is
    persisted, and has its one timeout pending. *)
Theorem X18_login_form_signs_in now data o w :
  0 <= now -> single_timer (app w) ->
  truthy (opt_get data "token") = true ->
  opt_get data "user" = VObj o ->
  has_key "expiresAt" o = false ->
  let w' := LoginPage.handleSubmit JSON_stringify StringToNumber now
              (inr data) w in
  inflight w' = inflight w /\
  authenticated (app w') = true /\
  storage (app w') = Some (JSON_stringify (user (app w'))) /\
  opt_get (user (app w')) "token" = opt_get data "token" /\
  opt_get (user (app w')) "role" = (get "role" o ||| VStr "user") /\
  truthy (opt_get (user (app w')) "role") = true /\
  opt_get (user (app w')) "id" =
    coalesce [get "id" o; get "_id" o; get "userId" o] /\
  opt_get (user (app w')) "expiresAt" = VNum (Int (now + 3600000)) /\
  armed (now + 3600000) (app w').
Proof.
  intros Hnow Hs Htok Hu Hex. cbv zeta.
  destruct (login_form_signs_in now data o w Hnow Hs Htok Hu Hex)
    as [s [Hus [Hst [Ht [Hr [Hid [_ [_ [_ [He [Ha Hi]]]]]]]]]]].
  unfold authenticated. rewrite Hus, Hst. cbn [opt_get truthy].
  repeat (split; auto).
  rewrite Hr. unfold or_else. now destruct (truthy (get "role" o)) eqn:E.
Qed.


End Forms.

(* ===================================================================== *)
(** ** Properties of the router *)
(* ===================================================================== *)

Lemma is_string_eq v s : is_string v s = true -> v = VStr s.
Proof.
  destruct v; try discriminate. simpl. intros H.
  apply String.eqb_eq in H. now subst.
Qed.

(** X14.  Every navigation settles after at most one redirect: the router
    never ends on a [<Navigate>], and allowing more redirects changes
    nothing.  What it settles on is guarded: the admin list only for a
    ready session whose role is exactly ["admin"], on its own route; the
    dashboard only for a ready session with a user; the login and
    registration pages only without a user; and nothing at all only while
    the session is not ready. *)
Theorem X14_routes_settle_and_are_guarded (user : value) (ready : bool)
        (r : route) :
  (forall to, settle 1 user ready r <> Navigate to) /\
  (forall hops, settle (S hops) user ready r = settle 1 user ready r) /\
  (settle 1 user ready r = Show PageUserList ->
   r = RouteAdminUsers /\ ready = true /\ truthy user = true /\
   opt_get user "role" = VStr "admin") /\
  (settle 1 user ready r = Show PageDashboard ->
   ready = true /\ truthy user = true) /\
  (settle 1 user ready r = Show PageLogin \/
   settle 1 user ready r = Show PageRegister -> truthy user = false) /\
  (settle 1 user ready r = Blank -> ready = false).
Proof.
  pose proof (is_string_eq (opt_get user "role") "admin") as Hadmin.
  unfold settle, AppRouter, ProtectedRoute, role_differs.
  destruct (is_string (opt_get user "role") "admin"), (truthy user) eqn:Eu,
    ready, r;
    cbn [negb andb String.eqb]; rewrite ?Eu; cbn [negb andb];
    (split; [discriminate|]);
    (split; [intros [|hops]; repeat (progress (cbn; rewrite ?Eu)); reflexivity|]);
    repeat split; try discriminate; try (intros [?|?]; discriminate);
    auto.
Qed.

Lemma logout_ready st : ready (logout st) = ready st.
Proof. unfold logout. now rewrite clearLogoutTimer_ready. Qed.

Section RoutesOfASession.

Variable JSON_parse : string -> js value.
Variable JSON_stringify : value -> string.
Variable StringToNumber : string -> number.

Local Abbreviation scheduleAutoLogout := (scheduleAutoLogout StringToNumber).
Local Abbreviation login_commit :=
  (login_commit JSON_stringify StringToNumber).
Local Abbreviation step := (step JSON_stringify StringToNumber).
Local Abbreviation run := (run JSON_stringify StringToNumber).
Local Abbreviation render := (render StringToNumber).
Local Abbreviation mount := (mount JSON_parse StringToNumber).

Lemma scheduleAutoLogout_ready now ex st :
  ready (scheduleAutoLogout now ex st) = ready st.
Proof.
  unfold Auth.scheduleAutoLogout.
  destruct (truthy ex); cbn [negb]; [|apply clearLogoutTimer_ready].
  destruct (leb _ _).
  - now rewrite logout_ready, clearLogoutTimer_ready.
  - simpl. apply clearLogoutTimer_ready.
Qed.

Lemma step_ready ev w : ready (app (step ev w)) = ready (app w).
Proof.
  destruct ev as [now ud|now i r| |now h|now]; simpl.
  - destruct (wants_role _); simpl; auto.
    unfold Auth.login_commit. now rewrite scheduleAutoLogout_ready.
  - destruct (nth_error (inflight w) i) as [p|]; auto.
    rewrite login_resume_commit. simpl.
    unfold Auth.login_commit. now rewrite scheduleAutoLogout_ready.
  - apply logout_ready.
  - destruct (existsb _ _); auto. simpl. now rewrite logout_ready.
  - unfold Auth.render. destruct (same_value _ _); auto.
    unfold Auth.expiry_effect. destruct (truthy _).
    + rewrite scheduleAutoLogout_ready. now rewrite clearLogoutTimer_ready.
    + now rewrite !clearLogoutTimer_ready.
Qed.

Lemma run_ready evs w : ready (app (run evs w)) = ready (app w).
Proof.
  revert w. induction evs as [|ev evs IH]; intros w; simpl; auto.
  rewrite IH. apply step_ready.
Qed.

(** X15.  Once the provider has mounted, whatever happens to the session,
    no route is blank and no route is left on a redirect: without a user
    every route shows the login or the registration page, and with a user
    every route shows the dashboard or the admin list.  In particular
    after [logout] no protected page is shown. *)
Theorem X15_routes_after_mount now stored st0 evs r :
  mount now stored = inr st0 ->
  let st := app (run evs (mkWorld st0 [])) in
  (authenticated st = false ->
   view st r = Show PageLogin \/ view st r = Show PageRegister) /\
  (authenticated st = true ->
   view st r = Show PageDashboard \/
   (view st r = Show PageUserList /\ r = RouteAdminUsers /\
    opt_get (user st) "role" = VStr "admin")) /\
  (view (logout st) r = Show PageLogin \/
   view (logout st) r = Show PageRegister).
Proof.
  intros Hm. cbv zeta.
  destruct (mount_disarmed _ _ _ _ _ Hm) as [_ Hr0].
  pose proof (run_ready evs (mkWorld st0 [])) as Hr. simpl in Hr.
  rewrite Hr0 in Hr.
  set (st := app (run evs (mkWorld st0 []))) in *.
  assert (forall u, truthy u = false ->
            settle 1 u true r = Show PageLogin \/
            settle 1 u true r = Show PageRegister) as Hout.
  { intros u Hu. unfold settle, AppRouter, ProtectedRoute.
    destruct r; cbn [negb]; rewrite ?Hu; cbn [negb]; rewrite ?Hu; auto. }
  unfold view, authenticated. rewrite logout_ready, logout_user, Hr.
  split; [apply Hout|]. split; [|now apply Hout].
  intros Hu.
  pose proof (is_string_eq (opt_get (user st) "role") "admin") as Hadmin.
  unfold settle, AppRouter, ProtectedRoute, role_differs.
  destruct (is_string (opt_get (user st) "role") "admin");
    destruct r; cbn [negb andb String.eqb]; rewrite ?Hu; cbn [negb andb];
    rewrite ?Hu; cbn [negb andb]; auto.
Qed.

End RoutesOfASession.

(* ===================================================================== *)
(** ** Properties of the admin list *)
(* ===================================================================== *)

(** X16.  [UserRoleUpdate] never sends the demotion of the signed-in
    user's own row: a request that [toggleRole] sends for a row it takes
    for the user's own asks for ["admin"].  The button is disabled (when
    idle) exactly when the handler would refuse, and the role asked for is
    ["user"] only for a row whose role is exactly ["admin"]. *)
Theorem X16_no_self_demotion (user : value) (u : obj) :
  (forall id role bearer,
     toggleRole user u = Sent id role bearer ->
     id = ToString (get "userId" u) /\
     (isSelf user u = true -> role = Some "admin") /\
     (role = Some "user" -> get "role" u = VStr "admin") /\
     (role = Some "user" \/ role = Some "admin")) /\
  (disabled user u false = true <->
   exists message, toggleRole user u = Refused message) /\
  (forall loading, loading = true -> disabled user u loading = true).
Proof.
  pose proof (is_string_eq (get "role" u) "admin") as Hadmin.
  unfold toggleRole, disabled, newRole, send.
  destruct (is_string (get "role" u) "admin"), (isSelf user u);
    cbn [andb orb negb String.eqb Ascii.eqb Bool.eqb];
    (split; [|split]);
    try (intros id role bearer H; destruct user; inversion H; subst;
         repeat split; auto; try discriminate);
    try (split; [discriminate | intros [m H]; destruct user; discriminate]);
    try (split; [intros _; eexists; reflexivity | reflexivity]);
    try (intros loading ->; reflexivity);
    try (intros id role bearer H; discriminate).
Qed.

(** X17.  [handleDelete] never sends the deletion of a row whose [userId]
    is one of the signed-in user's own identifiers, whatever the answer to
    the confirmation, and never sends one that was not confirmed; a request
    it sends names the row's [userId] and carries the session's token. *)
Theorem X17_no_self_deletion (user : value) (targetUser : obj)
        (confirmed : bool) :
  (includes (myIds user) (ToString (get "userId" targetUser)) = true ->
   exists message, handleDelete user targetUser confirmed = Refused message) /\
  (forall id role bearer,
     handleDelete user targetUser confirmed = Sent id role bearer ->
     confirmed = true /\ role = None /\
     id = ToString (get "userId" targetUser) /\
     includes (myIds user) id = false /\
     bearer = ToString (opt_get user "token")).
Proof.
  unfold handleDelete, send. split.
  - intros ->. eexists. reflexivity.
  - intros id role bearer.
    destruct (includes (myIds user) (ToString (get "userId" targetUser)))
      eqn:E; [discriminate|].
    destruct confirmed; cbn [negb]; [|discriminate].
    destruct user; intros H; inversion H; subst; auto.
Qed.

Lemma includes_myIds_id user :
  truthy (opt_get user "id") = true ->
  includes (myIds user) (ToString (opt_get user "id")) = true.
Proof.
  intros H. unfold myIds. cbn [filter]. rewrite H.
  cbn [map includes existsb]. now rewrite String.eqb_refl.
Qed.

Section OwnRow.

Variable JSON_stringify : value -> string.
Variable StringToNumber : string -> number.

(** X19.  A user signed in through the login form is protected from
    their own row of the admin list: when the server's user object names
    the user by [id], [_id] or [userId], the row with that [userId] is
    taken for the user's own, its deletion is refused before any
    confirmation, and while its role is ["admin"] its role button is
    disabled and the demotion refused. *)
Theorem X19_signed_in_user_keeps_own_row now data o w (row : obj) :
  0 <= now -> single_timer (app w) ->
  truthy (opt_get data "token") = true ->
  opt_get data "user" = VObj o ->
  has_key "expiresAt" o = false ->
  truthy (coalesce [get "id" o; get "_id" o; get "userId" o]) = true ->
  ToString (get "userId" row) =
    ToString (coalesce [get "id" o; get "_id" o; get "userId" o]) ->
  let st := app (LoginPage.handleSubmit JSON_stringify StringToNumber now
                   (inr data) w) in
  isSelf (user st) row = true /\
  (forall confirmed,
     exists message, handleDelete (user st) row confirmed = Refused message) /\
  (get "role" row = VStr "admin" ->
   disabled (user st) row false = true /\
   exists message, toggleRole (user st) row = Refused message).
Proof.
  intros Hnow Hs Htok Hu Hex Hid Hrow. cbv zeta.
  destruct (login_form_signs_in JSON_stringify StringToNumber
              now data o w Hnow Hs Htok Hu Hex)
    as [s [Hus [_ [_ [_ [Hids _]]]]]].
  rewrite Hus.
  assert (includes (myIds (VObj s)) (ToString (get "userId" row)) = true)
    as Hin.
  { rewrite Hrow, <- Hids. apply (includes_myIds_id (VObj s)).
    cbn [opt_get]. now rewrite Hids. }
  assert (isSelf (VObj s) row = true) as Hself
    by (unfold isSelf; now rewrite Hin).
  split; [exact Hself|]. split.
  - intros confirmed. unfold handleDelete. rewrite Hin. eexists. reflexivity.
  - intros Hadmin. unfold disabled, toggleRole, newRole.
    rewrite Hself, Hadmin. cbn. split; [reflexivity|]. eexists. reflexivity.
Qed.

End OwnRow.

(* ===================================================================== *)
(** ** Further runs *)
(* ===================================================================== *)

(** X2 after a token-only login, its settlement and a render. *)
Lemma X2_witness :
  mount parse string_to_number 0 None = inr (mounted 0 None) /\
  let st := app (go [Login 100 token_only; Settle 200 0 profile;
                     Render 250]) in
  authenticated st = true /\
  (authenticated st = true -> storage st <> None) /\
  ((user st = VNull /\ storage st = None) \/
   (exists o, user st = VObj o /\ storage st = Some (stringify (VObj o)))).
Proof.
  split; [reflexivity|]. cbv zeta. split; [reflexivity|].
  destruct (X2_store_follows_session parse stringify string_to_number
              0 None (mounted 0 None)
              [Login 100 token_only; Settle 200 0 profile; Render 250]
              eq_refl) as [H1 H2].
  split; [exact H1 | exact (H2 eq_refl)].
Defined.

(** X3 for a token-only login whose profile request resolves, over a store
    that takes the write and over one that is full. *)
Lemma X3_witness :
  0 <= 1000 /\ 1000 <= 2000 /\ single_timer (mounted 0 None) /\
  (exists st' o due,
     login_checked stringify string_to_number (fun _ => true) 1000 2000
       token_only profile (mounted 0 None) = inr st' /\
     user st' = VObj o /\ storage st' = Some (stringify (VObj o)) /\
     1000 <= due /\ armed due st') /\
  login_checked stringify string_to_number full_store 1000 2000
    token_only profile (mounted 0 None) = inl quota_exceeded.
Proof.
  assert (single_timer (mounted 0 None)) as Hs
    by (apply disarmed_single; split; reflexivity).
  split; [lia|]. split; [lia|]. split; [exact Hs|]. split.
  - destruct (X3_login_arms_or_logs_out stringify string_to_number
                (fun _ => true) 1000 2000 token_only profile (mounted 0 None))
      as [o [_ [_ Hok]]]; [lia | lia | exact Hs |].
    destruct (Hok eq_refl) as [st' [Hl [Hl' Hcases]]].
    destruct Hcases as [[Hu _]|[due [Hu [Hst [Hd Ha]]]]].
    + exfalso. apply (f_equal (fun r => match r with
                                        | inr x => truthy (user x)
                                        | inl _ => false
                                        end)) in Hl'.
      rewrite Hu in Hl'. vm_compute in Hl'. discriminate.
    + exists st', o, due. auto.
  - destruct (X3_login_arms_or_logs_out stringify string_to_number
                full_store 1000 2000 token_only profile (mounted 0 None))
      as [o [_ [Hfull _]]]; [lia | lia | exact Hs |].
    exact (Hfull eq_refl).
Defined.


(** X5 for the record [{token, expiresAt: 5000}] restored at 1000 and
    first rendered at 1500. *)
Lemma X5_witness :
  mount parse string_to_number 1000 (Some stored_live) =
    inr (mounted 1000 (Some stored_live)) /\
  1500 < 5000 /\ 5000 - 1500 <= max_delay /\
  let st0 := mounted 1000 (Some stored_live) in
  let st1 := render string_to_number 1500 st0 in
  user st1 = user st0 /\ storage st1 = storage st0 /\ armed 5000 st1 /\
  forall h t', logoutTimerRef st1 = Some h -> 5000 <= t' ->
    let w := step stringify string_to_number (Fire t' h) (mkWorld st1 []) in
    user (app w) = VNull /\ storage (app w) = None /\ disarmed (app w).
Proof.
  split; [reflexivity|]. split; [lia|].
  split; [unfold max_delay; lia|].
  destruct (X5_restored_session_expires parse stringify string_to_number
              1000 (Some stored_live) (mounted 1000 (Some stored_live))
              5000 1500 eq_refl eq_refl eq_refl) as [Hahead _].
  apply Hahead; [lia | unfold max_delay; lia].
Defined.

(** X6 for the record [{token}] restored at 1000. *)
Lemma X6_witness :
  mount parse string_to_number 1000 (Some stored_no_expiry) =
    inr (mounted 1000 (Some stored_no_expiry)) /\
  let st0 := mounted 1000 (Some stored_no_expiry) in
  let st := app (run stringify string_to_number
                   [Render 1500; Fire 2000 1; Render 99999999]
                   (mkWorld st0 [])) in
  authenticated st0 = true /\
  user st = user st0 /\ storage st = storage st0 /\ disarmed st.
Proof.
  split; [reflexivity|]. cbv zeta. split; [reflexivity|].
  apply (X6_session_without_expiry_is_kept parse stringify string_to_number
           1000 (Some stored_no_expiry)
           (mounted 1000 (Some stored_no_expiry))
           [Render 1500; Fire 2000 1; Render 99999999]); reflexivity.
Defined.

(** X7 for two token-only logins at 100 and 150 whose requests settle at
    200 and 300. *)
Lemma X7_witness :
  let w2 := run stringify string_to_number
              [Login 100 token_only; Login 150 other_token] fresh_world in
  let second_first := app (run stringify string_to_number
                             [Settle 200 1 (inl network_error);
                              Settle 300 0 profile] w2) in
  let first_first := app (run stringify string_to_number
                            [Settle 200 0 profile;
                             Settle 300 0 (inl network_error)] w2) in
  (opt_get (user second_first) "token" = VStr "t1" /\
   armed 3600100 second_first) /\
  (opt_get (user first_first) "token" = VStr "t2" /\
   armed 3600150 first_first).
Proof.
  cbv zeta.
  destruct (X7_last_settlement_wins stringify string_to_number
              100 150 200 300 token_only other_token
              profile (inl network_error) fresh_world 3600100 3600150)
    as [[Hu1 [_ Ha1]] [Hu2 [_ Ha2]]];
    try reflexivity; try lia.
  - apply disarmed_single. split; reflexivity.
  - split; split; [now rewrite Hu1 | exact Ha1 | now rewrite Hu2 | exact Ha2].
Defined.

(** X8 for a token-only login and a profile that names an admin. *)
Lemma X8_witness :
  wants_role (login_prepare 1000 token_only) = true /\
  let s := enriched (login_prepare 1000 token_only) (inr profile_body) in
  get "role" s = VStr "admin" /\
  get "id" s = VNum (Int 7) /\
  get "token" s = VStr "t1".
Proof.
  split; [reflexivity|]. cbv zeta.
  destruct (X8_enriched_session_has_role
              (login_prepare 1000 token_only) profile_body profile_user
              eq_refl eq_refl) as [Hr [_ [Hi Hk]]].
  split; [exact Hr|]. split; [exact Hi|].
  rewrite Hk by discriminate. reflexivity.
Defined.

(** X10 for a raw user named by [_id]. *)
Lemma X10_witness :
  distinct_keys raw_user = true /\
  exists n,
    normalizeUser (VObj raw_user) = VObj n /\
    (forall k, is_picked k = false -> get k n = get k raw_user) /\
    get "_id" n = VUndefined /\ get "userId" n = VUndefined /\
    get "username" n = coalesce [get "username" raw_user] /\
    get "email" n = coalesce [get "email" raw_user] /\
    get "createdAt" n = get "createdAt" raw_user /\
    get "updatedAt" n = get "updatedAt" raw_user.
Proof.
  split; [reflexivity|].
  apply (X10_normalizeUser_keeps_other_properties raw_user). reflexivity.
Defined.


(** X15 for a session signed in as a plain user, at the admin route. *)
Lemma X15_witness :
  mount parse string_to_number 0 None = inr (mounted 0 None) /\
  let st := app (go [Login 1000 second_login]) in
  authenticated st = true /\
  view st RouteAdminUsers = Show PageDashboard /\
  (view (logout st) RouteAdminUsers = Show PageLogin \/
   view (logout st) RouteAdminUsers = Show PageRegister).
Proof.
  split; [reflexivity|]. cbv zeta.
  destruct (X15_routes_after_mount parse stringify string_to_number
              0 None (mounted 0 None) [Login 1000 second_login]
              RouteAdminUsers eq_refl) as [_ [_ Hout]].
  split; [reflexivity|]. split; [reflexivity | exact Hout].
Defined.

(** X18 for a well-formed login response at 1000. *)
Lemma X18_witness :
  let w' := LoginPage.handleSubmit stringify string_to_number 1000
              (inr login_body) fresh_world in
  inflight w' = [] /\
  authenticated (app w') = true /\
  opt_get (user (app w')) "token" = VStr "jwt" /\
  opt_get (user (app w')) "role" = VStr "user" /\
  opt_get (user (app w')) "id" = VStr "u7" /\
  opt_get (user (app w')) "expiresAt" = VNum (Int 3601000) /\
  armed 3601000 (app w').
Proof.
  cbv zeta.
  assert (single_timer (app fresh_world)) as Hs
    by (apply disarmed_single; split; reflexivity).
  destruct (X18_login_form_signs_in stringify string_to_number
              1000 login_body login_user fresh_world)
    as [Hi [Ha [_ [Ht [Hr [_ [Hid [He Harm]]]]]]]];
    [lia | exact Hs | reflexivity | reflexivity | reflexivity |].
  repeat split; assumption.
Defined.

(** X19 for the user of that response and their own row. *)
Lemma X19_witness :
  let st := app (LoginPage.handleSubmit stringify string_to_number 1000
                   (inr login_body) fresh_world) in
  get "role" own_row = VStr "admin" /\
  isSelf (user st) own_row = true /\
  (forall confirmed,
     exists message, handleDelete (user st) own_row confirmed = Refused message) /\
  disabled (user st) own_row false = true /\
  exists message, toggleRole (user st) own_row = Refused message.
Proof.
  cbv zeta.
  assert (single_timer (app fresh_world)) as Hs
    by (apply disarmed_single; split; reflexivity).
  destruct (X19_signed_in_user_keeps_own_row stringify string_to_number
              1000 login_body login_user fresh_world own_row)
    as [Hself [Hdel Hrole]];
    [lia | exact Hs | reflexivity | reflexivity | reflexivity | reflexivity
    | reflexivity |].
  split; [reflexivity|]. split; [exact Hself|]. split; [exact Hdel|].
  exact (Hrole eq_refl).
Defined.

(** X12 for a profile that names an admin, and for an empty body. *)
Lemma X12_witness :
  fetchUserRole (VStr "t1") (inr profile_body) = inr (VStr "admin") /\
  exists e, fetchUserRole (VStr "t1") (inr VNull) = inl e.
Proof.
  split.
  - destruct (X12_fetchUserRole_role_or_throw (VStr "t1") (inr profile_body))
      as [_ H].
    destruct (H eq_refl) as [_ [Hrole _]].
    exact (proj1 (Hrole profile_body profile_user eq_refl eq_refl)).
  - destruct (X12_fetchUserRole_role_or_throw (VStr "t1") (inr VNull))
      as [_ H].
    destruct (H eq_refl) as [_ [_ Hnull]].
    apply (Hnull VNull eq_refl). now left.
Defined.

(** X14 for an administrator at the admin route. *)
Lemma X14_witness :
  settle 1 signed_admin true RouteAdminUsers = Show PageUserList /\
  opt_get signed_admin "role" = VStr "admin" /\
  settle 5 signed_admin true RouteOther = Show PageDashboard.
Proof.
  destruct (X14_routes_settle_and_are_guarded signed_admin true
              RouteAdminUsers) as [_ [_ [Hlist _]]].
  split; [reflexivity|]. split.
  - now destruct (Hlist eq_refl) as [_ [_ [_ Hrole]]].
  - destruct (X14_routes_settle_and_are_guarded signed_admin true RouteOther)
      as [_ [Hhops _]].
    rewrite (Hhops 4%nat). reflexivity.
Defined.

(** X16 for an administrator, on their own row and on another one. *)
Lemma X16_witness :
  isSelf signed_admin own_row = true /\
  disabled signed_admin own_row false = true /\
  (exists message, toggleRole signed_admin own_row = Refused message) /\
  toggleRole signed_admin other_row = Sent "u9" (Some "user") "jwt" /\
  get "role" other_row = VStr "admin".
Proof.
  split; [reflexivity|]. split; [reflexivity|].
  destruct (X16_no_self_demotion signed_admin own_row) as [_ [Hdis _]].
  split; [now apply Hdis|].
  destruct (X16_no_self_demotion signed_admin other_row) as [Hsent _].
  split; [reflexivity|].
  now destruct (Hsent "u9" (Some "user") "jwt" eq_refl) as [_ [_ [Hrole _]]];
    apply Hrole.
Defined.

(** X17 for an administrator, on their own row and on another one. *)
Lemma X17_witness :
  (exists message, handleDelete signed_admin own_row true = Refused message) /\
  handleDelete signed_admin other_row true = Sent "u9" None "jwt" /\
  includes (myIds signed_admin) "u9" = false.
Proof.
  split.
  - destruct (X17_no_self_deletion signed_admin own_row true) as [Hown _].
    now apply Hown.
  - split; [reflexivity|].
    destruct (X17_no_self_deletion signed_admin other_row true) as [_ Hsent].
    now destruct (Hsent "u9" None "jwt" eq_refl) as [_ [_ [_ [Hin _]]]].
Defined.
